(** * extract_rpg_sessions.py: message reconstruction, session segmentation
      and rendering, embedded in Rocq.

    Python [str] values are sequences of Unicode code points; they are modelled
    as lists of [N].  The [dict]s that carry a message are modelled as a
    record with the three keys the script uses.  The line-by-line parser keeps
    the script's index arithmetic: every [while] loop is a function of the
    index [i], defined by recursion on the measure [len(lines) - i], and a
    subscript [lines[j]] is a partial operation whose failure ([IndexError])
    is the [None] of the result type.  The document writer is outside the
    script: a document is the list of headings and paragraphs added to it. *)

From Stdlib Require Import String Ascii List NArith Arith Lia Bool.
From Stdlib Require Import FunInd Recdef Sorted.
Import ListNotations.

(* ===================================================================== *)
(** ** Python strings *)
(* ===================================================================== *)

Module PyStr.

(** A code point. *)
Definition char := N.

(** A Python [str]. *)
Definition pystr := list char.

(** Decoder for the literals of this file: the UTF-8 bytes of a Rocq
    string literal are read as the code points of the Python literal. *)
Fixpoint utf8_decode (s : string) (pending : nat) (acc : N) : pystr :=
  match s with
  | EmptyString => []
  | String a s' =>
      let b := N_of_ascii a in
      match pending with
      | O =>
          if (b <? 0x80)%N then b :: utf8_decode s' 0 0%N
          else if (b <? 0xE0)%N then utf8_decode s' 1 (b - 0xC0)%N
          else if (b <? 0xF0)%N then utf8_decode s' 2 (b - 0xE0)%N
          else utf8_decode s' 3 (b - 0xF0)%N
      | S O => (acc * 64 + (b - 0x80))%N :: utf8_decode s' 0 0%N
      | S p => utf8_decode s' p (acc * 64 + (b - 0x80))%N
      end
  end.

Definition py (s : string) : pystr := utf8_decode s 0 0%N.

(** [s == t] *)
Fixpoint eqb (s t : pystr) : bool :=
  match s, t with
  | [], [] => true
  | a :: s', b :: t' => (a =? b)%N && eqb s' t'
  | _, _ => false
  end.

(** Truth value of a string: [if s:] holds for a non-empty string. *)
Definition truthy (s : pystr) : bool :=
  match s with [] => false | _ :: _ => true end.

(** [str.isspace] on one code point; the characters [str.strip()]
    removes. *)
Definition isspace (c : char) : bool :=
  ((0x9 <=? c) && (c <=? 0xD) || (0x1C <=? c) && (c <=? 0x20)
   || (c =? 0x85) || (c =? 0xA0) || (c =? 0x1680)
   || (0x2000 <=? c) && (c <=? 0x200A)
   || (c =? 0x2028) || (c =? 0x2029) || (c =? 0x202F) || (c =? 0x205F)
   || (c =? 0x3000))%N.

Fixpoint lstrip (s : pystr) : pystr :=
  match s with
  | [] => []
  | c :: s' => if isspace c then lstrip s' else s
  end.

Definition rstrip (s : pystr) : pystr := rev (lstrip (rev s)).

(** [s.strip()] *)
Definition strip (s : pystr) : pystr := rstrip (lstrip s).

(** [s.startswith(p)] *)
Fixpoint startswith (p s : pystr) : bool :=
  match p, s with
  | [], _ => true
  | _ :: _, [] => false
  | a :: p', b :: s' => (a =? b)%N && startswith p' s'
  end.

(** [s.endswith(p)] *)
Definition endswith (p s : pystr) : bool := startswith (rev p) (rev s).

(** [s[:-1]] *)
Definition but_last (s : pystr) : pystr := removelast s.

(** [s.replace(old, new)]: the occurrences of [old] are found scanning
    from the left, each scan resuming after the occurrence just replaced.
    For an empty [old], Python puts [new] before every character and at
    the end. *)
Function replace (old new s : pystr) {measure length s} : pystr :=
  match old with
  | [] => new ++ flat_map (fun c => c :: new) s
  | o :: old' =>
      match s with
      | [] => []
      | c :: s' =>
          if startswith old s
          then new ++ replace old new (skipn (length old') s')
          else c :: replace old new s'
      end
  end.
Proof. all: intros; try rewrite length_skipn; simpl; lia. Defined.

(** [sep.join(parts)] *)
Fixpoint join (sep : pystr) (parts : list pystr) : pystr :=
  match parts with
  | [] => []
  | [x] => x
  | x :: rest => x ++ sep ++ join sep rest
  end.

(** [str(n)] for a non-negative integer. *)
Fixpoint uint_chars (d : Decimal.uint) : pystr :=
  match d with
  | Decimal.Nil => []
  | Decimal.D0 d' => 48%N :: uint_chars d'
  | Decimal.D1 d' => 49%N :: uint_chars d'
  | Decimal.D2 d' => 50%N :: uint_chars d'
  | Decimal.D3 d' => 51%N :: uint_chars d'
  | Decimal.D4 d' => 52%N :: uint_chars d'
  | Decimal.D5 d' => 53%N :: uint_chars d'
  | Decimal.D6 d' => 54%N :: uint_chars d'
  | Decimal.D7 d' => 55%N :: uint_chars d'
  | Decimal.D8 d' => 56%N :: uint_chars d'
  | Decimal.D9 d' => 57%N :: uint_chars d'
  end.

Definition str_of_nat (n : nat) : pystr := uint_chars (Nat.to_uint n).

End PyStr.
Import PyStr.

(* ===================================================================== *)
(** ** Regular expressions: the fragment of [re] the script uses *)
(* ===================================================================== *)

Module Re.

Inductive regex : Type :=
| Str (l : pystr)               (* a run of literal characters *)
| Cls (p : char -> bool)        (* one character of a class: [67], [^x] *)
| Plus (p : char -> bool)       (* c+ for a one-character item c, greedy *)
| Cat (r1 r2 : regex)           (* r1 r2 *)
| Opt (r : regex).              (* (r)? greedy *)

(** [c+] followed by the continuation [k]: the longer run is tried
    first. *)
Fixpoint plus_then (p : char -> bool) (k : pystr -> bool) (s : pystr) : bool :=
  match s with
  | [] => false
  | c :: s' => p c && (plus_then p k s' || k s')
  end.

(** Backtracking matcher anchored at the start of [s]: [r] matches a
    prefix of [s] and [k] accepts what is left. *)
Fixpoint rmatch (r : regex) (k : pystr -> bool) (s : pystr) : bool :=
  match r with
  | Str l => startswith l s && k (skipn (length l) s)
  | Cls p => match s with [] => false | c :: s' => p c && k s' end
  | Plus p => plus_then p k s
  | Cat r1 r2 => rmatch r1 (rmatch r2 k) s
  | Opt r' => rmatch r' k s || k s
  end.

(** [bool(pattern.search(s))]: a match at some position of [s]. *)
Fixpoint search (r : regex) (s : pystr) : bool :=
  rmatch r (fun _ => true) s
  || match s with [] => false | _ :: s' => search r s' end.

Definition in_range (lo hi c : N) : bool := ((lo <=? c) && (c <=? hi))%N.

(** [\d] on a [str] pattern: the code points of general category Nd
    (the table of Unicode 14.0; the ASCII digits are its first row). *)
Definition decimal_ranges : list (N * N) :=
  [ (0x30,0x39); (0x660,0x669); (0x6F0,0x6F9); (0x7C0,0x7C9); (0x966,0x96F);
    (0x9E6,0x9EF); (0xA66,0xA6F); (0xAE6,0xAEF); (0xB66,0xB6F); (0xBE6,0xBEF);
    (0xC66,0xC6F); (0xCE6,0xCEF); (0xD66,0xD6F); (0xDE6,0xDEF); (0xE50,0xE59);
    (0xED0,0xED9); (0xF20,0xF29); (0x1040,0x1049); (0x1090,0x1099);
    (0x17E0,0x17E9); (0x1810,0x1819); (0x1946,0x194F); (0x19D0,0x19D9);
    (0x1A80,0x1A89); (0x1A90,0x1A99); (0x1B50,0x1B59); (0x1BB0,0x1BB9);
    (0x1C40,0x1C49); (0x1C50,0x1C59); (0xA620,0xA629); (0xA8D0,0xA8D9);
    (0xA900,0xA909); (0xA9D0,0xA9D9); (0xA9F0,0xA9F9); (0xAA50,0xAA59);
    (0xABF0,0xABF9); (0xFF10,0xFF19); (0x104A0,0x104A9); (0x10D30,0x10D39);
    (0x11066,0x1106F); (0x110F0,0x110F9); (0x11136,0x1113F);
    (0x111D0,0x111D9); (0x112F0,0x112F9); (0x11450,0x11459);
    (0x114D0,0x114D9); (0x11650,0x11659); (0x116C0,0x116C9);
    (0x11730,0x11739); (0x118E0,0x118E9); (0x11950,0x11959);
    (0x11C50,0x11C59); (0x11D50,0x11D59); (0x11DA0,0x11DA9);
    (0x16A60,0x16A69); (0x16AC0,0x16AC9); (0x16B50,0x16B59);
    (0x1D7CE,0x1D7FF); (0x1E140,0x1E149); (0x1E2F0,0x1E2F9);
    (0x1E950,0x1E959); (0x1FBF0,0x1FBF9) ]%N.

Definition digit (c : char) : bool :=
  existsb (fun r => in_range (fst r) (snd r) c) decimal_ranges.

Definition one_of (l : pystr) (c : char) : bool :=
  existsb (fun x => (x =? c)%N) l.

Definition none_of (l : pystr) (c : char) : bool := negb (one_of l c).

End Re.

(* ===================================================================== *)
(** ** Literals of the script *)
(* ===================================================================== *)

Definition colon : pystr := Eval vm_compute in py ":".
Definition label_time : pystr := Eval vm_compute in py "时间:".
Definition label_content : pystr := Eval vm_compute in py "内容:".
Definition label_mention : pystr := Eval vm_compute in py "提及:".
Definition newline : pystr := [10%N].
Definition save_marker : pystr := Eval vm_compute in py "——save——".

(** [r'——CST501[67]/\d+/\d+(/\d+时?)?(，[^—]+)?——'] *)
Definition start_pattern : Re.regex :=
  Re.Cat (Re.Str (py "——CST501"))
  (Re.Cat (Re.Cls (Re.one_of (py "67")))
  (Re.Cat (Re.Str (py "/"))
  (Re.Cat (Re.Plus Re.digit)
  (Re.Cat (Re.Str (py "/"))
  (Re.Cat (Re.Plus Re.digit)
  (Re.Cat (Re.Opt (Re.Cat (Re.Str (py "/"))
                  (Re.Cat (Re.Plus Re.digit) (Re.Opt (Re.Str (py "时"))))))
  (Re.Cat (Re.Opt (Re.Cat (Re.Str (py "，")) (Re.Plus (Re.none_of (py "—")))))
          (Re.Str (py "——"))))))))).

(* ===================================================================== *)
(** ** Messages and the line store *)
(* ===================================================================== *)

(** The dict [{'username': .., 'timestamp': .., 'content': ..}]; the
    timestamp is a [str] or [None]. *)
Record message : Type := Message {
  username : pystr;
  timestamp : option pystr;
  content : pystr
}.

(** Sequencing of operations that may raise: [None] is the exception. *)
Notation "x <- e ;; k" :=
  (match e with Some x => k | None => None end)
  (at level 61, e at next level, right associativity, only parsing).
Notation "' p <- e ;; k" :=
  (match e with Some p => k | None => None end)
  (at level 61, p pattern, e at next level, right associativity, only parsing).

(** [f.readlines()] on a text whose newlines are already translated to
    ["\n"]: each line keeps its terminator. *)
Fixpoint readlines_from (text cur : pystr) : list pystr :=
  match text with
  | [] => match cur with [] => [] | _ :: _ => [cur] end
  | c :: text' =>
      if (c =? 10)%N then (cur ++ [c]) :: readlines_from text' []
      else readlines_from text' (cur ++ [c])
  end.

Definition readlines (text : pystr) : list pystr := readlines_from text [].

(** [lines[j]]; [None] is [IndexError]. *)
Definition subscript (lines : list pystr) (j : nat) : option pystr :=
  nth_error lines j.

(** [j < len(lines) and lines[j].strip().startswith(label)]: the subscript
    is evaluated only when the bound check holds. *)
Definition peek_label (lines : list pystr) (j : nat) (label : pystr)
  : option bool :=
  if j <? length lines then
    raw <- subscript lines j ;; Some (startswith label (strip raw))
  else Some false.

(* ===================================================================== *)
(** ** parse_chat_log (lines 47-116) *)
(* ===================================================================== *)

(** Lines 60, 64-66: the optional time field after the username line at
    index [i].  Returns the timestamp and the index reached. *)
Definition read_timestamp (lines : list pystr) (i : nat)
  : option (option pystr * nat) :=
  b <- peek_label lines (i + 1) label_time ;;
  if b then
    raw <- subscript lines (i + 1) ;;
    Some (Some (strip (replace label_time [] (strip raw))), i + 1)
  else Some (None, i).

(** Line 79: the test that ends content accumulation before [next_line]:
    a mention line, or a line ending in a colon that is followed by a time
    line. *)
Definition stops_here (lines : list pystr) (i : nat) (next_line : pystr)
  : option bool :=
  if startswith label_mention next_line then Some true
  else if endswith colon next_line then peek_label lines (i + 2) label_time
  else Some false.

(** Lines 74-95: the accumulation loop.  Returns the index reached and the
    accumulated content lines. *)
Function accumulate (lines : list pystr) (i consecutive_empty : nat)
    (content_lines : list pystr)
    {measure (fun i => length lines - i) i} : option (nat * list pystr) :=
  if i + 1 <? length lines then
    match subscript lines (i + 1) with
    | None => None
    | Some raw =>
        let next_line := strip raw in
        match stops_here lines i next_line with
        | None => None
        | Some true => Some (i, content_lines)
        | Some false =>
            if negb (truthy next_line) then
              if 2 <=? consecutive_empty + 1 then Some (i, content_lines)
              else accumulate lines (i + 1) (consecutive_empty + 1)
                     (content_lines ++ [[]])
            else accumulate lines (i + 1) 0 (content_lines ++ [next_line])
        end
    end
  else Some (i, content_lines).
Proof. all: intros; apply Nat.ltb_lt in teq; lia. Defined.

(** Lines 98-99: [while content_lines and not content_lines[-1]:
    content_lines.pop()]. *)
Fixpoint drop_empty_front (l : list pystr) : list pystr :=
  match l with
  | [] => []
  | x :: l' => if truthy x then l else drop_empty_front l'
  end.

Definition pop_trailing_empty (content_lines : list pystr) : list pystr :=
  rev (drop_empty_front (rev content_lines)).

(** Lines 61, 69-101: the content field after index [i].  Returns the
    content ([None] when there is no content line) and the index reached. *)
Definition read_content (lines : list pystr) (i : nat)
  : option (option pystr * nat) :=
  b <- peek_label lines (i + 1) label_content ;;
  if b then
    raw <- subscript lines (i + 1) ;;
    let content_lines := [strip (replace label_content [] (strip raw))] in
    '(i', content_lines') <- accumulate lines (i + 1) 0 content_lines ;;
    Some (Some (join newline (pop_trailing_empty content_lines')), i')
  else Some (None, i).

(** Lines 104-105: skip the mention lines that follow. *)
Function skip_mentions (lines : list pystr) (i : nat)
    {measure (fun i => length lines - i) i} : option nat :=
  if i + 1 <? length lines then
    match subscript lines (i + 1) with
    | None => None
    | Some raw =>
        if truthy (strip raw) && startswith label_mention (strip raw)
        then skip_mentions lines (i + 1)
        else Some i
    end
  else Some i.
Proof. intros; apply Nat.ltb_lt in teq; lia. Defined.

(** Lines 59-105: the record that starts at the username line [line] at
    index [i]: username, timestamp, content, index reached. *)
Definition read_record (lines : list pystr) (i : nat) (line : pystr)
  : option (pystr * option pystr * option pystr * nat) :=
  let username := but_last line in
  '(timestamp, i1) <- read_timestamp lines i ;;
  '(content, i2) <- read_content lines i1 ;;
  i3 <- skip_mentions lines i2 ;;
  Some (username, timestamp, content, i3).

(** Lines 107-112: [if content: messages.append(...)]. *)
Definition append_if_content (messages : list message)
    (username : pystr) (timestamp content : option pystr) : list message :=
  match content with
  | Some body =>
      if truthy body then messages ++ [Message username timestamp body]
      else messages
  | None => messages
  end.

(** Lines 55-112: one iteration of the main loop at index [i], up to but
    excluding the final [i += 1]. *)
Definition iteration (lines : list pystr) (i : nat) (messages : list message)
  : option (nat * list message) :=
  raw <- subscript lines i ;;
  let line := strip raw in
  if truthy line && endswith colon line then
    '(username, timestamp, content, i') <- read_record lines i line ;;
    Some (i', append_if_content messages username timestamp content)
  else Some (i, messages).

(* ===================================================================== *)
(** ** Termination of the main loop *)
(* ===================================================================== *)

(** The index never moves backwards inside an iteration: what the main
    loop's termination rests on. *)
Lemma accumulate_index lines i ce cl i' cl' :
  accumulate lines i ce cl = Some (i', cl') -> i <= i'.
Proof.
  functional induction (accumulate lines i ce cl); intros Hr;
    try discriminate Hr; try (inversion Hr; lia);
    match goal with IH : _ -> _ <= _ |- _ => apply IH in Hr; lia end.
Qed.

Lemma skip_mentions_index lines i i' :
  skip_mentions lines i = Some i' -> i <= i'.
Proof.
  functional induction (skip_mentions lines i); intros Hr;
    try discriminate Hr; try (inversion Hr; lia).
  apply IHo in Hr. lia.
Qed.

Lemma read_timestamp_index lines i t i' :
  read_timestamp lines i = Some (t, i') -> i <= i'.
Proof.
  unfold read_timestamp. destruct (peek_label _ _ _) as [[|]|]; try discriminate.
  - destruct (subscript _ _); intros H; inversion H; lia.
  - intros H; inversion H; lia.
Qed.

Lemma read_content_index lines i c i' :
  read_content lines i = Some (c, i') -> i <= i'.
Proof.
  unfold read_content. destruct (peek_label _ _ _) as [[|]|]; try discriminate.
  - destruct (subscript _ _); try discriminate.
    destruct (accumulate _ _ _ _) as [[j cl]|] eqn:Hacc; try discriminate.
    apply accumulate_index in Hacc. intros H; inversion H; lia.
  - intros H; inversion H; lia.
Qed.

Lemma read_record_index lines i line u t c i' :
  read_record lines i line = Some (u, t, c, i') -> i <= i'.
Proof.
  unfold read_record.
  destruct (read_timestamp _ _) as [[t0 i1]|] eqn:Ht; try discriminate.
  destruct (read_content _ _) as [[c0 i2]|] eqn:Hc; try discriminate.
  destruct (skip_mentions _ _) as [i3|] eqn:Hs; try discriminate.
  apply read_timestamp_index in Ht. apply read_content_index in Hc.
  apply skip_mentions_index in Hs. intros H; inversion H; lia.
Qed.

Lemma iteration_index lines i messages i' messages' :
  iteration lines i messages = Some (i', messages') -> i <= i'.
Proof.
  unfold iteration. destruct (subscript _ _); try discriminate.
  destruct (truthy _ && endswith _ _).
  - destruct (read_record _ _ _) as [[[[u t] c] j]|] eqn:Hr; try discriminate.
    apply read_record_index in Hr. intros H; inversion H; lia.
  - intros H; inversion H; lia.
Qed.

(** Lines 52-116: the main loop [while i < len(lines): ...; i += 1]. *)
Function parse_loop (lines : list pystr) (i : nat) (messages : list message)
    {measure (fun i => length lines - i) i} : option (list message) :=
  if i <? length lines then
    match iteration lines i messages with
    | None => None
    | Some (i', messages') => parse_loop lines (i' + 1) messages'
    end
  else Some messages.
Proof.
  intros lines i messages Hlt [i' messages'] j ms Heq Hit.
  inversion Heq; subst. apply Nat.ltb_lt in Hlt.
  apply iteration_index in Hit. lia.
Defined.

(** [parse_chat_log], on the list [f.readlines()] returned. *)
Definition parse_chat_log (lines : list pystr) : option (list message) :=
  parse_loop lines 0 [].

(* ===================================================================== *)
(** ** extract_rpg_sessions (lines 118-153) *)
(* ===================================================================== *)

(** [start_pattern.search(content)], as a truth value. *)
Definition is_start_marker (content : pystr) : bool :=
  Re.search start_pattern content.

(** [content == '——save——'] *)
Definition is_end_marker (content : pystr) : bool := eqb content save_marker.

(** The three variables the loop updates.  A list that has been appended
    to [sessions] is never appended to again: [current_session] is rebound
    to a fresh list right after, so the lists are values here. *)
Record seg_state : Type := SegState {
  sessions : list (list message);
  in_session : bool;
  current_session : list message
}.

Definition seg_init : seg_state := SegState [] false [].

(** [if in_session and current_session:] *)
Definition open_nonempty (st : seg_state) : bool :=
  in_session st && match current_session st with [] => false | _ :: _ => true end.

(** Lines 132-147: the body of [for msg in messages]. *)
Definition seg_step (st : seg_state) (msg : message) : seg_state :=
  if is_start_marker (content msg) then
    SegState
      (if open_nonempty st then sessions st ++ [current_session st]
       else sessions st)
      true
      [msg]
  else if in_session st then
    let current := current_session st ++ [msg] in
    if is_end_marker (content msg) then SegState (sessions st ++ [current]) false []
    else SegState (sessions st) true current
  else st.

(** The state when the loop over [messages] ends. *)
Definition seg_loop (messages : list message) : seg_state :=
  fold_left seg_step messages seg_init.

(** Lines 149-153. *)
Definition seg_finish (st : seg_state) : list (list message) :=
  if open_nonempty st then sessions st ++ [current_session st] else sessions st.

Definition extract_rpg_sessions (messages : list message) : list (list message) :=
  seg_finish (seg_loop messages).

(* ===================================================================== *)
(** ** Name and colour tables (lines 20-45) *)
(* ===================================================================== *)

Inductive RGBColor : Type := RGB (r g b : N).

(** [k in d] and [d[k]] on a dict literal. *)
Fixpoint dict_get {V : Type} (d : list (pystr * V)) (k : pystr) : option V :=
  match d with
  | [] => None
  | (k', v) :: d' => if eqb k' k then Some v else dict_get d' k
  end.

Definition NAME_MAPPING : list (pystr * pystr) :=
  [ (py "失语", py "【神谕圣咏】吾即五声");
    (py "heavy🐜", py "【调停者】阿德勒");
    (py "Ga1axian", py "【九号球】玖渚巡");
    (py "随波逐流制作委员会", py "【黑印】加尔文");
    (py "梦之海", py "【菟丝子】十七");
    (py "无糖常温百事FES", py "【时代】艾帕克");
    (py "907564155", py "【神谕圣咏】吾即五声");
    (py "2704587599", py "【调停者】阿德勒");
    (py "1456846090", py "【九号球】玖渚巡");
    (py "1695539040", py "【黑印】加尔文");
    (py "1214581195", py "【菟丝子】十七");
    (py "651464169", py "【时代】艾帕克") ].

Definition COLOR_MAPPING : list (pystr * RGBColor) :=
  [ (py "【神谕圣咏】吾即五声", RGB 255 0 0);
    (py "【调停者】阿德勒", RGB 128 0 128);
    (py "【九号球】玖渚巡", RGB 139 69 19);
    (py "【黑印】加尔文", RGB 0 0 0);
    (py "【菟丝子】十七", RGB 0 0 255);
    (py "【时代】艾帕克", RGB 128 128 128) ].

(* ===================================================================== *)
(** ** process_rpg_session (lines 155-184) *)
(* ===================================================================== *)

(** Lines 161-182: the dict appended for one message. *)
Definition process_message (msg : message) : message :=
  let username :=
    match dict_get NAME_MAPPING (username msg) with
    | Some name => name
    | None => username msg
    end in
  let content := content msg in
  let timestamp :=
    if is_start_marker content || is_end_marker content then timestamp msg
    else None in
  Message username timestamp content.

Definition process_rpg_session (session : list message) : list message :=
  map process_message session.

(* ===================================================================== *)
(** ** create_word_document (lines 186-225) *)
(* ===================================================================== *)

(** A run of a paragraph: its text, whether [bold] was set, and the colour
    assigned to [font.color.rgb], if any. *)
Record run : Type := Run {
  text : pystr;
  bold : bool;
  color : option RGBColor
}.

(** What the document is made of, in the order it was added. *)
Inductive block : Type :=
| Heading (title : pystr) (level : nat)
| Paragraph (runs : list run).

(** Lines 209-212: the timestamp run, added when [msg['timestamp']] is
    a non-empty string. *)
Definition timestamp_runs (msg : message) : list run :=
  match timestamp msg with
  | Some ts =>
      if truthy ts
      then [Run (py " [" ++ ts ++ py "]") false (dict_get COLOR_MAPPING (username msg))]
      else []
  | None => []
  end.

(** Lines 200-222: the runs of the paragraph of a processed message. *)
Definition paragraph_runs (msg : message) : list run :=
  let c := dict_get COLOR_MAPPING (username msg) in
  [Run (username msg) true c]
  ++ timestamp_runs msg
  ++ [Run (py ": ") false c; Run (content msg) false c].

(** Lines 193-222: heading and paragraphs of one session. *)
Definition session_blocks (idx : nat) (session : list message) : list block :=
  Heading (py "会话 " ++ str_of_nat idx) 1
  :: map (fun msg => Paragraph (paragraph_runs msg)) (process_rpg_session session).

(** Lines 191-222: [for idx, session in enumerate(sessions, 1)]. *)
Fixpoint render_sessions (idx : nat) (sessions : list (list message))
    (doc : list block) : list block :=
  match sessions with
  | [] => doc
  | session :: rest =>
      render_sessions (S idx) rest (doc ++ session_blocks idx session)
  end.

(** The content of the document handed to [doc.save]. *)
Definition create_word_document (sessions : list (list message)) : list block :=
  render_sessions 1 sessions [Heading (py "RPG会话记录") 0].

(** The paragraph of one message of a session, from the raw message. *)
Definition render_message (msg : message) : list run :=
  paragraph_runs (process_message msg).

(** The paragraphs of a document, in order. *)
Definition paragraphs (doc : list block) : list (list run) :=
  flat_map (fun b => match b with Paragraph runs => [runs] | Heading _ _ => [] end) doc.

(* ===================================================================== *)
(** ** main (lines 227-270) *)
(* ===================================================================== *)

(** What an operation on the outside world gives: a value,
    [FileNotFoundError], or another exception with its text [str(e)]. *)
Inductive io_result (A : Type) : Type :=
| IoOk (a : A)
| IoNotFound
| IoRaised (text : pystr).
Arguments IoOk {A} a.
Arguments IoNotFound {A}.
Arguments IoRaised {A} text.

(** What a run leaves behind: the texts printed, one per [print]; the
    exit status (0 when [main] returns); the document saved, with its
    path. *)
Record outcome : Type := Outcome {
  printed : list pystr;
  exit_status : nat;
  saved : option (pystr * list block)
}.

(** [__doc__], the docstring of lines 3-12. *)
Definition module_doc : pystr :=
  join newline
    (map py [ ""; "提取QQ聊天记录中的RPG会话，并生成彩色Word文档"; "";
              "使用方法：";
              "    python extract_rpg_sessions.py <输入文件> [输出文件]"; "";
              "示例：";
              "    python extract_rpg_sessions.py chat_log.txt output.docx";
              "    python extract_rpg_sessions.py chat_log.txt"; "" ]%string).

(** [str(e)] of the [IndexError] a list subscript raises. *)
Definition index_error_text : pystr := py "list index out of range".

Section Main.

(** [os.path.splitext]. *)
Variable splitext : pystr -> pystr * pystr.

(** [open(path, 'r', encoding='utf-8')] and [f.readlines()] (lines 49-50). *)
Variable read_lines : pystr -> io_result (list pystr).

(** What the document library does with the headings and paragraphs of
    [create_word_document] and with [doc.save(path)] (lines 188-224). *)
Variable save_document : pystr -> list block -> io_result unit.

(** Lines 265-267: [except FileNotFoundError]. *)
Definition on_file_not_found (so_far : list pystr) (input_file : pystr)
  : outcome :=
  Outcome (so_far ++ [py "❌ 错误：找不到文件 " ++ input_file]) 1 None.

(** Lines 268-270: [except Exception as e]. *)
Definition on_exception (so_far : list pystr) (text : pystr) : outcome :=
  Outcome (so_far ++ [py "❌ 处理过程中出错：" ++ text]) 1 None.

(** Lines 250-264: the body of the [try]. *)
Definition process (so_far : list pystr) (input_file output_file : pystr)
  : outcome :=
  let so_far := so_far ++ [py "正在解析聊天记录..."] in
  match read_lines input_file with
  | IoNotFound => on_file_not_found so_far input_file
  | IoRaised text => on_exception so_far text
  | IoOk lines =>
      match parse_chat_log lines with
      | None => on_exception so_far index_error_text
      | Some messages =>
          let so_far :=
            so_far
            ++ [ py "共解析到 " ++ str_of_nat (length messages) ++ py " 条消息";
                 py "正在提取RPG会话..." ] in
          let sessions := extract_rpg_sessions messages in
          let so_far :=
            so_far
            ++ [py "共提取到 " ++ str_of_nat (length sessions) ++ py " 个RPG会话"] in
          match sessions with
          | [] => Outcome (so_far ++ [py "⚠️  未找到RPG会话"]) 0 None
          | _ :: _ =>
              let so_far := so_far ++ [py "正在生成Word文档..."] in
              let doc := create_word_document sessions in
              match save_document output_file doc with
              | IoNotFound => on_file_not_found so_far input_file
              | IoRaised text => on_exception so_far text
              | IoOk _ =>
                  Outcome
                    (so_far ++ [ py "Word文档已生成：" ++ output_file;
                                 py "✅ 完成！" ])
                    0 (Some (output_file, doc))
              end
          end
      end
  end.

(** Lines 238-244: [sys.argv[2]] when there is one, else the input path
    without its extension, with [_rpg.docx]. *)
Definition output_path (input_file : pystr) (more : list pystr) : pystr :=
  match more with
  | given :: _ => given
  | [] => fst (splitext input_file) ++ py "_rpg.docx"
  end.

(** Lines 227-270, on [sys.argv]. *)
Definition main (argv : list pystr) : outcome :=
  match argv with
  | _ :: input_file :: more =>
      let output_file := output_path input_file more in
      process [ py "输入文件: " ++ input_file;
                py "输出文件: " ++ output_file;
                repeat 45%N 50 ]
              input_file output_file
  | _ =>
      Outcome [ module_doc; py "错误：请提供输入文件路径";
                py "使用方法: python extract_rpg_sessions.py <输入文件> [输出文件]" ]
              1 None
  end.

End Main.

(* ===================================================================== *)
(** ** Vocabulary of the statements *)
(* ===================================================================== *)

Definition starts (m : message) : Prop := is_start_marker (content m) = true.
Definition no_start (l : list message) : Prop :=
  Forall (fun m => is_start_marker (content m) = false) l.
Definition no_end (l : list message) : Prop :=
  Forall (fun m => is_end_marker (content m) = false) l.

(** A session still being accumulated: a start marker, then messages
    that are neither start nor end markers. *)
Definition open_shape (s : list message) : Prop :=
  exists m rest, s = m :: rest /\ starts m /\ no_start rest /\ no_end rest.

(** An emitted session: as above, except that its last message may be
    the end marker. *)
Definition closed_shape (s : list message) : Prop :=
  exists m rest,
    s = m :: rest /\ starts m /\ no_start rest /\ no_end (removelast rest).

Definition seg_inv (st : seg_state) : Prop :=
  Forall closed_shape (sessions st) /\
  (if in_session st then open_shape (current_session st)
   else current_session st = []).

(** All messages held by a segmenter state, in order: those of the emitted
    sessions, then those of the session being accumulated. *)
Definition held (st : seg_state) : list message :=
  concat (sessions st) ++ current_session st.

(** The main loop examines index [i] with [messages] accumulated so far. *)
Inductive visits (lines : list pystr) : nat -> list message -> Prop :=
| visits_first : visits lines 0 []
| visits_next (i : nat) (messages : list message) (i' : nat)
    (messages' : list message) :
    visits lines i messages ->
    i < length lines ->
    iteration lines i messages = Some (i', messages') ->
    visits lines (i' + 1) messages'.

(** No two blank entries in a row; [prev_blank] tells whether the entry
    before the list was blank. *)
Fixpoint no_double_blank (prev_blank : bool) (l : list pystr) : bool :=
  match l with
  | [] => true
  | x :: l' =>
      if truthy x then no_double_blank false l'
      else negb prev_blank && no_double_blank true l'
  end.

(** The entry accumulated last was blank (or, when nothing was
    accumulated, the count of blank lines was already positive). *)
Definition blank_before (ce : nat) (more : list pystr) : Prop :=
  (more = [] /\ 1 <= ce) \/ exists init, more = init ++ [[]].

(** Why the accumulation loop stopped at index [i']: end of input, the
    test of line 79 on the next line, or a blank next line right after a
    blank one. *)
Definition stopped (lines : list pystr) (i' ce : nat) (more : list pystr) : Prop :=
  ~ i' + 1 < length lines
  \/ exists nxt,
       subscript lines (i' + 1) = Some nxt /\
       (stops_here lines i' (strip nxt) = Some true
        \/ (strip nxt = [] /\ blank_before ce more)).

(** The words of the specification for an accumulated line: the source line
    with only its line terminator removed.  Used to state C5 as written;
    it is not what the script computes. *)
Definition spec_verbatim_line (raw : pystr) : pystr :=
  match rev raw with
  | c :: r => if (c =? 10)%N then rev r else raw
  | [] => []
  end.

(** [a] is [b] with some elements left out, the others in their order. *)
Inductive subsequence {A : Type} : list A -> list A -> Prop :=
| subsequence_nil : subsequence [] []
| subsequence_skip (x : A) (a b : list A) :
    subsequence a b -> subsequence a (x :: b)
| subsequence_keep (x : A) (a b : list A) :
    subsequence a b -> subsequence (x :: a) (x :: b).

(** The messages of a list whose content matches the start pattern. *)
Definition start_markers (messages : list message) : list message :=
  filter (fun m => is_start_marker (content m)) messages.

(** The test of line 58 on a source line: its stripped text is non-empty
    and ends with a colon. *)
Definition username_line (raw : pystr) : bool :=
  truthy (strip raw) && endswith colon (strip raw).

(** Message [m] is the record read at the username line of index [j]. *)
Definition origin (lines : list pystr) (j : nat) (m : message) : Prop :=
  exists raw i',
    subscript lines j = Some raw /\
    username_line raw = true /\
    read_record lines j (strip raw)
    = Some (username m, timestamp m, Some (content m), i').

(* ===================================================================== *)
(** ** Sample inputs *)
(* ===================================================================== *)

(** Rows joined by newlines: a text, or the body of a message. *)
Definition rows_of (rows : list string) : pystr :=
  PyStr.join [10%N] (map py rows).

(** A source line: a row and its line terminator. *)
Definition line_of (row : string) : pystr := py row ++ [10%N].

(** The text of a file whose lines are [rows], each ended by a newline. *)
Definition text_of (rows : list string) : pystr := flat_map line_of rows.

Definition scenario_text : pystr :=
  rows_of [ "Alice:"; "时间: 2024/1/1"; "内容: ——CST5016/08/14——";
            "Alice:"; "时间: 2024/1/1"; "内容: ——save——" ]%string.

Definition msg_start1 : message :=
  Message (py "失语") (Some (py "2024-01-01 20:00:00")) (py "——CST5016/08/14——").
Definition msg_start2 : message :=
  Message (py "失语") (Some (py "2024-01-02 20:00:00")) (py "——CST5016/09/01——").
Definition msg_save : message :=
  Message (py "失语") (Some (py "2024-01-02 23:00:00")) save_marker.
Definition msg_talk (who what : string) : message :=
  Message (py who) (Some (py "2024-01-01 20:05:00")) (py what).
(** A message posted under the name of a character. *)
Definition msg_in_character : message :=
  Message (py "【神谕圣咏】吾即五声") (Some (py "2024-01-02 20:01:00")) (py "hi").

(** Chatter, a session cut short by a second start marker, a session
    closed by the save marker, chatter, and a session the input ends in. *)
Definition sample_messages : list message :=
  [ msg_talk "Bob" "hello";
    msg_start1; msg_talk "梦之海" "我走进酒馆";
    msg_start2; msg_talk "Ga1axian" "继续"; msg_save;
    msg_talk "Bob" "bye";
    msg_start1; msg_talk "Bob" "还在吗" ].

Definition malformed_lines : list pystr :=
  readlines (text_of ["A:"; "时间: t"; "B:"; "时间: t2"; "内容: x"]%string).

Definition untimed_lines : list pystr :=
  readlines (text_of ["旁白:"; "内容: 天亮了"]%string).

Definition swallowed_lines : list pystr :=
  readlines (text_of ["A:"; "时间: t"; "内容: hi"; "B:"; "内容: x"]%string).

(** The same lines, with a time line in the second record. *)
Definition timed_lines : list pystr :=
  readlines
    (text_of ["A:"; "时间: t"; "内容: hi"; "B:"; "时间: u"; "内容: x"]%string).

Definition indented_lines : list pystr :=
  readlines (text_of ["A:"; "内容: x"; "  y  "]%string).

Definition blank_lines_text : list pystr :=
  readlines
    (text_of [ "甲:"; "时间: 20:00"; "内容:  第一行  "; "  "; "   第二行";
               ""; "  ";
               "乙:"; "时间: 20:01"; "内容: 好" ]%string).

Definition label_twice_lines : list pystr :=
  readlines (text_of ["A:"; "内容: 格式是 内容:文字"]%string).

(** A file system with one file, [chat.txt]. *)
Definition one_file (lines : list pystr) (path : pystr)
  : io_result (list pystr) :=
  if eqb path (py "chat.txt") then IoOk lines else IoNotFound.

(** [os.path.splitext] on paths with the extension [.txt]. *)
Definition splitext_txt (path : pystr) : pystr * pystr :=
  if endswith (py ".txt") path
  then (firstn (length path - 4) path, py ".txt")
  else (path, []).

Definition save_succeeds (path : pystr) (doc : list block) : io_result unit :=
  IoOk tt.

Definition save_denied (path : pystr) (doc : list block) : io_result unit :=
  IoRaised (py "[Errno 13] Permission denied: " ++ path).

Definition sample_argv : list pystr :=
  [py "extract_rpg_sessions.py"; py "chat.txt"].

Definition scenario_document_blocks : list block :=
  [ Heading (py "RPG会话记录") 0;
    Heading (py "会话 1") 1;
    Paragraph [ Run (py "Alice") true None;
                Run (py " [2024/1/1]") false None;
                Run (py ": ") false None;
                Run (py "——CST5016/08/14——") false None ];
    Paragraph [ Run (py "Alice") true None;
                Run (py " [2024/1/1]") false None;
                Run (py ": ") false None;
                Run (py "——save——") false None ] ].

(* ===================================================================== *)
(** ** The embedding on the sample inputs *)
(* ===================================================================== *)

Example py_save_marker :
  save_marker = [0x2014; 0x2014; 0x73; 0x61; 0x76; 0x65; 0x2014; 0x2014]%N.
Proof. reflexivity. Qed.

Example py_labels :
  label_time = [0x65f6; 0x95f4; 0x3a]%N /\
  label_content = [0x5185; 0x5bb9; 0x3a]%N /\
  label_mention = [0x63d0; 0x53ca; 0x3a]%N.
Proof. repeat split. Qed.

Example start_pattern_examples :
  Re.search start_pattern (py "——CST5016/08/14——") = true /\
  Re.search start_pattern (py "——CST5016/08/14/1900时——") = true /\
  Re.search start_pattern (py "——CST5016/10/21/1200——") = true /\
  Re.search start_pattern (py "——CST5017/01/11，AST0500——") = true /\
  Re.search start_pattern (py "开始 ——CST5017/01/10—— 了") = true /\
  Re.search start_pattern (py "——CST5018/01/10——") = false /\
  Re.search start_pattern (py "——CST5016/08——") = false /\
  Re.search start_pattern (rows_of ["——CST5016/1/2，a"; "b——"]%string) = true /\
  Re.search start_pattern (py "——CST5016/1/2，——") = false /\
  Re.search start_pattern (py "——CST5016/१/٢——") = true /\
  Re.search start_pattern (py "——CST5016/1/2/3时4——") = false /\
  Re.search start_pattern (py "——CST5016/1/2/——") = false /\
  Re.search start_pattern save_marker = false.
Proof. vm_compute. repeat split. Qed.

Example replace_examples :
  replace (py "内容:") [] (py "内容: a内容:b") = py " ab" /\
  replace (py "aa") (py "b") (py "aaa") = py "ba" /\
  replace [] (py "-") (py "abc") = py "-a-b-c-".
Proof. vm_compute. repeat split. Qed.

Example strip_examples :
  strip (line_of "  a b") = py "a b" /\
  strip (py "   ") = [] /\
  strip (py "　x ") = py "x" /\
  strip ([0x1C; 0x78; 0x85]%N) = py "x" /\
  py "heavy🐜" = [0x68; 0x65; 0x61; 0x76; 0x79; 0x1F41C]%N /\
  but_last (py "Alice:") = py "Alice".
Proof. vm_compute. repeat split. Qed.

Example parse_scenario :
  parse_chat_log (readlines scenario_text) =
  Some [ Message (py "Alice") (Some (py "2024/1/1")) (py "——CST5016/08/14——");
         Message (py "Alice") (Some (py "2024/1/1")) (py "——save——") ].
Proof. vm_compute. reflexivity. Qed.

Example scenario_sessions :
  option_map extract_rpg_sessions (parse_chat_log (readlines scenario_text)) =
  Some [[ Message (py "Alice") (Some (py "2024/1/1")) (py "——CST5016/08/14——");
          Message (py "Alice") (Some (py "2024/1/1")) (py "——save——") ]].
Proof. vm_compute. reflexivity. Qed.

Example scenario_document :
  option_map (fun ms => paragraphs (create_word_document (extract_rpg_sessions ms)))
    (parse_chat_log (readlines scenario_text)) =
  Some [ [ Run (py "Alice") true None; Run (py " [2024/1/1]") false None;
           Run (py ": ") false None; Run (py "——CST5016/08/14——") false None ];
         [ Run (py "Alice") true None; Run (py " [2024/1/1]") false None;
           Run (py ": ") false None; Run (py "——save——") false None ] ].
Proof. vm_compute. reflexivity. Qed.

Example scenario_blocks :
  option_map (fun ms => create_word_document (extract_rpg_sessions ms))
    (parse_chat_log (readlines scenario_text)) =
  Some [ Heading (py "RPG会话记录") 0;
         Heading (py "会话 1") 1;
         Paragraph [ Run (py "Alice") true None;
                     Run (py " [2024/1/1]") false None;
                     Run (py ": ") false None;
                     Run (py "——CST5016/08/14——") false None ];
         Paragraph [ Run (py "Alice") true None;
                     Run (py " [2024/1/1]") false None;
                     Run (py ": ") false None;
                     Run (py "——save——") false None ] ].
Proof. vm_compute. reflexivity. Qed.

Example sample_sessions :
  extract_rpg_sessions sample_messages =
  [ [msg_start1; msg_talk "梦之海" "我走进酒馆"];
    [msg_start2; msg_talk "Ga1axian" "继续"; msg_save];
    [msg_start1; msg_talk "Bob" "还在吗"] ].
Proof. vm_compute. reflexivity. Qed.

(** The markers do show the timestamp that the message carries. *)
Example marker_keeps_timestamp :
  render_message msg_save
  = [ Run (py "【神谕圣咏】吾即五声") true (Some (RGB 255 0 0));
      Run (py " [2024-01-02 23:00:00]") false (Some (RGB 255 0 0));
      Run (py ": ") false (Some (RGB 255 0 0));
      Run save_marker false (Some (RGB 255 0 0)) ].
Proof. vm_compute. reflexivity. Qed.

Example malformed_lines_parsed :
  parse_chat_log malformed_lines = Some [Message (py "B") (Some (py "t2")) (py "x")].
Proof. vm_compute. reflexivity. Qed.

Example untimed_lines_parsed :
  parse_chat_log untimed_lines = Some [Message (py "旁白") None (py "天亮了")].
Proof. vm_compute. reflexivity. Qed.

Example blank_lines_parsed :
  parse_chat_log blank_lines_text
  = Some [ Message (py "甲") (Some (py "20:00")) (rows_of ["第一行"; ""; "第二行"]%string);
           Message (py "乙") (Some (py "20:01")) (py "好") ].
Proof. vm_compute. reflexivity. Qed.

Example label_twice_parsed :
  parse_chat_log label_twice_lines
  = Some [Message (py "A") None (py "格式是 文字")].
Proof. vm_compute. reflexivity. Qed.

(* ===================================================================== *)
(** ** Basic facts on strings *)
(* ===================================================================== *)

Lemma eqb_eq (s t : pystr) : eqb s t = true <-> s = t.
Proof.
  revert t; induction s as [|a s IH]; intros [|b t]; simpl; split;
    try congruence; try reflexivity.
  - intros H. apply andb_true_iff in H as [Hab Hst].
    apply N.eqb_eq in Hab. apply IH in Hst. congruence.
  - intros H. inversion H; subst. rewrite N.eqb_refl. simpl. now apply IH.
Qed.

(* ===================================================================== *)
(** ** The segmenter's invariant *)
(* ===================================================================== *)

Section Segmenter.

Lemma Forall_removelast (A : Type) (P : A -> Prop) (l : list A) :
  Forall P l -> Forall P (removelast l).
Proof.
  induction l as [|a [|b l] IH]; simpl; intros H; auto.
  inversion H; subst. constructor; auto.
Qed.

Lemma open_closed s : open_shape s -> closed_shape s.
Proof.
  intros (m & rest & -> & Hm & Hs & He).
  exists m, rest. repeat split; auto. now apply Forall_removelast.
Qed.

Lemma open_shape_inside st : seg_inv st -> in_session st = true ->
  open_nonempty st = true /\ open_shape (current_session st).
Proof.
  intros [_ Hc] Hin. rewrite Hin in Hc. unfold open_nonempty. rewrite Hin.
  split; auto. destruct Hc as (m & rest & -> & _). reflexivity.
Qed.

Lemma seg_init_inv : seg_inv seg_init.
Proof. split; simpl; auto. Qed.

Lemma seg_step_inv st msg : seg_inv st -> seg_inv (seg_step st msg).
Proof.
  intros Hinv. unfold seg_step.
  destruct (is_start_marker (content msg)) eqn:Hstart.
  - split; simpl.
    + destruct (open_nonempty st) eqn:Hopen; [|apply Hinv].
      apply Forall_app. split; [apply Hinv|]. constructor; [|constructor].
      apply open_closed. apply open_shape_inside; auto.
      unfold open_nonempty in Hopen. now apply andb_true_iff in Hopen.
    + exists msg, []. repeat split; auto; constructor.
  - destruct (in_session st) eqn:Hin; [|exact Hinv].
    destruct (open_shape_inside st Hinv Hin) as [_ (m & rest & Hcur & Hm & Hs & He)].
    destruct Hinv as [Hsess _]. rewrite Hcur. simpl.
    destruct (is_end_marker (content msg)) eqn:Hend; split; simpl; auto.
    + apply Forall_app. split; auto. constructor; [|constructor].
      exists m, (rest ++ [msg]). repeat split; auto.
      * apply Forall_app; split; auto.
      * now rewrite removelast_last.
    + exists m, (rest ++ [msg]). repeat split; auto;
        apply Forall_app; split; auto.
Qed.

Lemma fold_seg_inv messages st :
  seg_inv st -> seg_inv (fold_left seg_step messages st).
Proof.
  revert st; induction messages as [|m ms IH]; simpl; intros st H; auto.
  apply IH. now apply seg_step_inv.
Qed.

Lemma seg_loop_inv messages : seg_inv (seg_loop messages).
Proof. apply fold_seg_inv, seg_init_inv. Qed.

Lemma seg_loop_snoc messages msg :
  seg_loop (messages ++ [msg]) = seg_step (seg_loop messages) msg.
Proof. unfold seg_loop. now rewrite fold_left_app. Qed.

Lemma extract_closed messages :
  Forall closed_shape (extract_rpg_sessions messages).
Proof.
  unfold extract_rpg_sessions, seg_finish.
  pose proof (seg_loop_inv messages) as Hinv.
  destruct (open_nonempty (seg_loop messages)) eqn:Hopen; [|apply Hinv].
  apply Forall_app. split; [apply Hinv|]. constructor; [|constructor].
  apply open_closed. apply open_shape_inside; auto.
  unfold open_nonempty in Hopen. now apply andb_true_iff in Hopen.
Qed.

(** Running the loop on the tail of a session, from the state reached
    after its start marker. *)
Lemma fold_tail_of_session rest : forall current,
  current <> [] -> no_start rest -> no_end (removelast rest) ->
  seg_finish (fold_left seg_step rest (SegState [] true current))
  = [current ++ rest].
Proof.
  induction rest as [|x rest IH]; intros current Hne Hs He; simpl.
  - unfold seg_finish, open_nonempty; simpl.
    destruct current; [congruence|]. now rewrite app_nil_r.
  - inversion Hs as [|? ? Hx Hs']; subst.
    unfold seg_step at 2. rewrite Hx. simpl.
    destruct (is_end_marker (content x)) eqn:Hend.
    + destruct rest as [|y rest]; [reflexivity|].
      simpl in He. inversion He; subst. congruence.
    + rewrite IH.
      * now rewrite <- app_assoc.
      * destruct current; simpl; congruence.
      * exact Hs'.
      * destruct rest as [|y rest]; [constructor|].
        simpl in He. now inversion He.
Qed.

Lemma resegment_closed s : closed_shape s -> extract_rpg_sessions s = [s].
Proof.
  intros (m & rest & -> & Hm & Hs & He).
  unfold extract_rpg_sessions, seg_loop. simpl.
  unfold seg_step at 2. unfold starts in Hm. rewrite Hm. simpl.
  apply (fold_tail_of_session rest [m]); auto. congruence.
Qed.

End Segmenter.

(* ===================================================================== *)
(** ** Theorems on the segmenter *)
(* ===================================================================== *)

(** C1.  Every session returned by [extract_rpg_sessions] is a non-empty
    list whose first message's content matches the start pattern; no empty
    session is returned, whichever way the session was closed. *)
Theorem sessions_start_with_marker (messages session : list message) :
  In session (extract_rpg_sessions messages) ->
  exists first rest,
    session = first :: rest /\ is_start_marker (content first) = true.
Proof.
  intros Hin.
  pose proof (extract_closed messages) as Hall.
  rewrite Forall_forall in Hall.
  destruct (Hall _ Hin) as (m & rest & Heq & Hm & _).
  now exists m, rest.
Qed.

Lemma sessions_start_with_marker_witness :
  In [msg_start1; msg_talk "梦之海" "我走进酒馆"] (extract_rpg_sessions sample_messages) /\
  exists first rest,
    [msg_start1; msg_talk "梦之海" "我走进酒馆"] = first :: rest /\
    is_start_marker (content first) = true.
Proof.
  assert (H : In [msg_start1; msg_talk "梦之海" "我走进酒馆"]
                (extract_rpg_sessions sample_messages)).
  { vm_compute. left. reflexivity. }
  split; [exact H|].
  exact (sessions_start_with_marker sample_messages _ H).
Defined.

(** C2.  Segmenting the messages of a session that the segmenter returned
    gives back that session alone. *)
Theorem resegment_idempotent (messages session : list message) :
  In session (extract_rpg_sessions messages) ->
  extract_rpg_sessions session = [session].
Proof.
  intros Hin. apply resegment_closed.
  pose proof (extract_closed messages) as Hall.
  rewrite Forall_forall in Hall. now apply Hall.
Qed.

Lemma resegment_idempotent_witness :
  In [msg_start2; msg_talk "Ga1axian" "继续"; msg_save]
     (extract_rpg_sessions sample_messages) /\
  extract_rpg_sessions [msg_start2; msg_talk "Ga1axian" "继续"; msg_save]
  = [[msg_start2; msg_talk "Ga1axian" "继续"; msg_save]].
Proof.
  assert (H : In [msg_start2; msg_talk "Ga1axian" "继续"; msg_save]
                (extract_rpg_sessions sample_messages)).
  { vm_compute. right. left. reflexivity. }
  split; [exact H|].
  exact (resegment_idempotent sample_messages _ H).
Defined.

(** C3.  When the loop is inside a session after [prefix] and the next
    message matches the start pattern, the accumulated session is appended
    to [sessions] without that message, the new current session is that
    message alone, and the messages held are those held before followed by
    the new one: none lost, none repeated. *)
Theorem forced_close_at_start_marker (prefix : list message) (msg : message) :
  in_session (seg_loop prefix) = true ->
  is_start_marker (content msg) = true ->
  seg_loop (prefix ++ [msg])
  = SegState (sessions (seg_loop prefix) ++ [current_session (seg_loop prefix)])
             true [msg]
  /\ held (seg_loop (prefix ++ [msg])) = held (seg_loop prefix) ++ [msg].
Proof.
  intros Hin Hstart.
  destruct (open_shape_inside _ (seg_loop_inv prefix) Hin) as [Hopen _].
  assert (Hstep : seg_loop (prefix ++ [msg])
                  = SegState (sessions (seg_loop prefix)
                              ++ [current_session (seg_loop prefix)]) true [msg]).
  { rewrite seg_loop_snoc. unfold seg_step. now rewrite Hstart, Hopen. }
  split; [exact Hstep|].
  rewrite Hstep. unfold held. simpl.
  rewrite concat_app. simpl. now rewrite app_nil_r.
Qed.

Lemma forced_close_at_start_marker_witness :
  in_session (seg_loop [ msg_talk "Bob" "hello"; msg_start1;
                         msg_talk "梦之海" "我走进酒馆" ]) = true /\
  is_start_marker (content msg_start2) = true /\
  seg_loop ([ msg_talk "Bob" "hello"; msg_start1;
              msg_talk "梦之海" "我走进酒馆" ] ++ [msg_start2])
  = SegState [[msg_start1; msg_talk "梦之海" "我走进酒馆"]] true [msg_start2].
Proof.
  assert (H1 : in_session (seg_loop [msg_talk "Bob" "hello"; msg_start1;
                                     msg_talk "梦之海" "我走进酒馆"]) = true)
    by (vm_compute; reflexivity).
  assert (H2 : is_start_marker (content msg_start2) = true)
    by (vm_compute; reflexivity).
  split; [exact H1|]. split; [exact H2|].
  exact (proj1 (forced_close_at_start_marker _ msg_start2 H1 H2)).
Defined.

(** C8.  If the loop ends inside a session that holds at least one message,
    that session is returned, as the last one. *)
Theorem unterminated_session_emitted (messages : list message) :
  in_session (seg_loop messages) = true ->
  current_session (seg_loop messages) <> [] ->
  extract_rpg_sessions messages
  = sessions (seg_loop messages) ++ [current_session (seg_loop messages)].
Proof.
  intros Hin Hne. unfold extract_rpg_sessions, seg_finish, open_nonempty.
  rewrite Hin. destruct (current_session (seg_loop messages)); [congruence|].
  reflexivity.
Qed.

Lemma unterminated_session_emitted_witness :
  in_session (seg_loop sample_messages) = true /\
  current_session (seg_loop sample_messages) <> [] /\
  extract_rpg_sessions sample_messages
  = sessions (seg_loop sample_messages) ++ [current_session (seg_loop sample_messages)].
Proof.
  assert (H1 : in_session (seg_loop sample_messages) = true)
    by (vm_compute; reflexivity).
  assert (H2 : current_session (seg_loop sample_messages) <> [])
    by (vm_compute; discriminate).
  split; [exact H1|]. split; [exact H2|].
  exact (unterminated_session_emitted sample_messages H1 H2).
Defined.

(** The same fact read on the input: when the last start marker of the
    input is followed by neither a start nor an end marker, the messages
    from that marker on are the last session returned. *)
Lemma open_tail_is_last_session (before tail : list message) (m : message) :
  is_start_marker (content m) = true -> no_start tail -> no_end tail ->
  exists closed,
    extract_rpg_sessions (before ++ m :: tail) = closed ++ [m :: tail].
Proof.
  intros Hm Hs He.
  assert (Hgen : forall tl st, no_start tl -> no_end tl ->
            in_session st = true -> current_session st <> [] ->
            seg_finish (fold_left seg_step tl st)
            = sessions st ++ [current_session st ++ tl]).
  { induction tl as [|x tl IH]; intros st Hs' He' Hin Hne; simpl.
    - unfold seg_finish, open_nonempty. rewrite Hin.
      destruct (current_session st); [congruence|]. now rewrite app_nil_r.
    - inversion Hs'; inversion He'; subst.
      assert (Hx : seg_step st x
                   = SegState (sessions st) true (current_session st ++ [x])).
      { unfold seg_step.
        repeat match goal with H : _ = false |- _ => rewrite H end.
        now rewrite Hin. }
      rewrite Hx. rewrite IH; auto.
      + simpl. now rewrite <- app_assoc.
      + simpl. destruct (current_session st); simpl; congruence. }
  unfold extract_rpg_sessions, seg_loop. rewrite fold_left_app. simpl.
  set (st := fold_left seg_step before seg_init).
  unfold seg_step at 2. rewrite Hm.
  eexists. rewrite Hgen; simpl; auto. congruence.
Qed.

(* ===================================================================== *)
(** ** Theorems on rendering *)
(* ===================================================================== *)

Lemma paragraphs_app (d1 d2 : list block) :
  paragraphs (d1 ++ d2) = paragraphs d1 ++ paragraphs d2.
Proof. unfold paragraphs. apply flat_map_app. Qed.

Lemma paragraphs_session_blocks (idx : nat) (session : list message) :
  paragraphs (session_blocks idx session) = map render_message session.
Proof.
  unfold session_blocks, process_rpg_session. simpl.
  induction session as [|m s IH]; simpl; [reflexivity|].
  now rewrite IH.
Qed.

Lemma paragraphs_render_sessions (sessions : list (list message)) :
  forall idx doc,
    paragraphs (render_sessions idx sessions doc)
    = paragraphs doc ++ map render_message (concat sessions).
Proof.
  induction sessions as [|s ss IH]; intros idx doc; simpl.
  - now rewrite app_nil_r.
  - rewrite IH, paragraphs_app, paragraphs_session_blocks, map_app.
    now rewrite app_assoc.
Qed.

(** The paragraphs of the document are the renderings of the sessions'
    messages, session after session. *)
Lemma paragraphs_of_document (sessions : list (list message)) :
  paragraphs (create_word_document sessions)
  = map render_message (concat sessions).
Proof. unfold create_word_document. now rewrite paragraphs_render_sessions. Qed.

(** A timestamp run in the paragraph of a message means that the message
    is a start marker or the end marker. *)
Lemma timestamp_run_means_marker (msg : message) :
  timestamp_runs (process_message msg) <> [] ->
  is_start_marker (content msg) = true \/ content msg = save_marker.
Proof.
  unfold timestamp_runs, process_message. cbn [username timestamp content].
  destruct (is_start_marker (content msg)) eqn:Hs; [now left|].
  destruct (is_end_marker (content msg)) eqn:He; cbn [orb].
  - intros _. right. now apply eqb_eq.
  - intros H. now contradiction H.
Qed.

(** C7.  The paragraphs of the document are the renderings of the messages
    of the sessions, and a message whose content neither matches the start
    pattern nor equals the end marker is rendered as three runs: name,
    separator and body, with no timestamp run, whatever timestamp the
    message carries. *)
Theorem timestamp_only_on_markers (sessions : list (list message)) (msg : message) :
  is_start_marker (content msg) = false ->
  content msg <> save_marker ->
  paragraphs (create_word_document sessions)
  = map render_message (concat sessions)
  /\ render_message msg
     = [ Run (username (process_message msg)) true
             (dict_get COLOR_MAPPING (username (process_message msg)));
         Run (py ": ") false
             (dict_get COLOR_MAPPING (username (process_message msg)));
         Run (content msg) false
             (dict_get COLOR_MAPPING (username (process_message msg))) ].
Proof.
  intros Hstart Hend. split; [apply paragraphs_of_document|].
  assert (He : is_end_marker (content msg) = false).
  { unfold is_end_marker. destruct (eqb _ _) eqn:E; auto.
    apply eqb_eq in E. contradiction. }
  unfold render_message, paragraph_runs, timestamp_runs, process_message.
  cbn [username timestamp content]. rewrite Hstart, He. reflexivity.
Qed.

Lemma timestamp_only_on_markers_witness :
  is_start_marker (content (msg_talk "梦之海" "我走进酒馆")) = false /\
  content (msg_talk "梦之海" "我走进酒馆") <> save_marker /\
  render_message (msg_talk "梦之海" "我走进酒馆")
  = [ Run (py "【菟丝子】十七") true (Some (RGB 0 0 255));
      Run (py ": ") false (Some (RGB 0 0 255));
      Run (py "我走进酒馆") false (Some (RGB 0 0 255)) ].
Proof.
  assert (H1 : is_start_marker (content (msg_talk "梦之海" "我走进酒馆")) = false)
    by (vm_compute; reflexivity).
  assert (H2 : content (msg_talk "梦之海" "我走进酒馆") <> save_marker)
    by (vm_compute; discriminate).
  split; [exact H1|]. split; [exact H2|].
  exact (proj2 (timestamp_only_on_markers (extract_rpg_sessions sample_messages)
                  (msg_talk "梦之海" "我走进酒馆") H1 H2)).
Defined.

(** C6, as stated, fails: an author identifier that is not a key of
    [NAME_MAPPING] but equals one of the character names is left unchanged
    and is a key of [COLOR_MAPPING], so its runs are coloured. *)
Lemma unmapped_author_colored :
  dict_get NAME_MAPPING (username msg_in_character) = None /\
  paragraphs (create_word_document [[msg_start2; msg_in_character]])
  = [ [ Run (py "【神谕圣咏】吾即五声") true (Some (RGB 255 0 0));
        Run (py " [2024-01-02 20:00:00]") false (Some (RGB 255 0 0));
        Run (py ": ") false (Some (RGB 255 0 0));
        Run (py "——CST5016/09/01——") false (Some (RGB 255 0 0)) ];
      [ Run (py "【神谕圣咏】吾即五声") true (Some (RGB 255 0 0));
        Run (py ": ") false (Some (RGB 255 0 0));
        Run (py "hi") false (Some (RGB 255 0 0)) ] ].
Proof. vm_compute. split; reflexivity. Qed.

(** C6, amended.  For a message of a rendered session whose author
    identifier is a key of neither [NAME_MAPPING] nor [COLOR_MAPPING], the
    paragraph of the message is in the document, its name run shows the
    identifier unchanged, and none of its runs is coloured. *)
Theorem unmapped_author_plain (sessions : list (list message)) (msg : message) :
  In msg (concat sessions) ->
  dict_get NAME_MAPPING (username msg) = None ->
  dict_get COLOR_MAPPING (username msg) = None ->
  In (render_message msg) (paragraphs (create_word_document sessions)) /\
  exists rest,
    render_message msg = Run (username msg) true None :: rest /\
    Forall (fun r => color r = None) (render_message msg).
Proof.
  intros Hin Hname Hcolor. split.
  { rewrite paragraphs_of_document. now apply in_map. }
  unfold render_message, paragraph_runs, timestamp_runs, process_message.
  cbn [username timestamp content]. rewrite Hname, Hcolor.
  eexists. split; [reflexivity|].
  destruct (is_start_marker (content msg) || is_end_marker (content msg)).
  - destruct (timestamp msg) as [ts|]; [destruct (truthy ts)|];
      cbn [app]; repeat constructor.
  - cbn [app]; repeat constructor.
Qed.

Lemma unmapped_author_plain_witness :
  In (msg_talk "Bob" "还在吗") (concat (extract_rpg_sessions sample_messages)) /\
  dict_get NAME_MAPPING (username (msg_talk "Bob" "还在吗")) = None /\
  dict_get COLOR_MAPPING (username (msg_talk "Bob" "还在吗")) = None /\
  In (render_message (msg_talk "Bob" "还在吗"))
     (paragraphs (create_word_document (extract_rpg_sessions sample_messages))) /\
  exists rest,
    render_message (msg_talk "Bob" "还在吗") = Run (py "Bob") true None :: rest /\
    Forall (fun r => color r = None) (render_message (msg_talk "Bob" "还在吗")).
Proof.
  assert (H0 : In (msg_talk "Bob" "还在吗")
                  (concat (extract_rpg_sessions sample_messages))).
  { vm_compute. do 6 right. left. reflexivity. }
  assert (H1 : dict_get NAME_MAPPING (username (msg_talk "Bob" "还在吗")) = None)
    by (vm_compute; reflexivity).
  assert (H2 : dict_get COLOR_MAPPING (username (msg_talk "Bob" "还在吗")) = None)
    by (vm_compute; reflexivity).
  split; [exact H0|]. split; [exact H1|]. split; [exact H2|].
  exact (unmapped_author_plain _ (msg_talk "Bob" "还在吗") H0 H1 H2).
Defined.

(* ===================================================================== *)
(** ** The parser raises no IndexError *)
(* ===================================================================== *)

Lemma subscript_in_range (lines : list pystr) (j : nat) :
  j < length lines -> exists raw, subscript lines j = Some raw.
Proof.
  intros H. unfold subscript.
  destruct (nth_error lines j) eqn:E; [eauto|].
  apply nth_error_None in E. lia.
Qed.

Lemma peek_label_total (lines : list pystr) (j : nat) (label : pystr) :
  exists b, peek_label lines j label = Some b.
Proof.
  unfold peek_label. destruct (j <? length lines) eqn:E; [|eauto].
  apply Nat.ltb_lt in E. destruct (subscript_in_range lines j E) as [raw ->].
  eauto.
Qed.

(** What a successful look-ahead says about the line looked at. *)
Lemma peek_label_true (lines : list pystr) (j : nat) (label : pystr) :
  peek_label lines j label = Some true <->
  exists raw, subscript lines j = Some raw /\ startswith label (strip raw) = true.
Proof.
  unfold peek_label. split.
  - destruct (j <? length lines); [|discriminate].
    destruct (subscript lines j) as [raw|]; [|discriminate].
    intros H. inversion H. eauto.
  - intros (raw & Hraw & Hs).
    assert (Hlt : j < length lines).
    { apply nth_error_Some. unfold subscript in Hraw. congruence. }
    apply Nat.ltb_lt in Hlt. now rewrite Hlt, Hraw, Hs.
Qed.

Lemma stops_here_total (lines : list pystr) (i : nat) (next_line : pystr) :
  exists b, stops_here lines i next_line = Some b.
Proof.
  unfold stops_here. destruct (startswith _ _); [eauto|].
  destruct (endswith _ _); [apply peek_label_total | eauto].
Qed.

Lemma accumulate_total (lines : list pystr) (i ce : nat) (cl : list pystr) :
  exists r, accumulate lines i ce cl = Some r.
Proof.
  functional induction (accumulate lines i ce cl); eauto.
  - apply Nat.ltb_lt in e.
    destruct (subscript_in_range lines _ e) as [raw Hraw].
    rewrite Hraw in e0. discriminate e0.
  - destruct (stops_here_total lines i (strip raw)) as [b Hb].
    rewrite Hb in e1. discriminate e1.
Qed.

Lemma skip_mentions_total (lines : list pystr) (i : nat) :
  exists i', skip_mentions lines i = Some i'.
Proof.
  functional induction (skip_mentions lines i); eauto.
  apply Nat.ltb_lt in e.
  destruct (subscript_in_range lines _ e) as [raw Hraw].
  rewrite Hraw in e0. discriminate e0.
Qed.

Lemma read_timestamp_total (lines : list pystr) (i : nat) :
  exists t i', read_timestamp lines i = Some (t, i').
Proof.
  unfold read_timestamp.
  destruct (peek_label lines (i + 1) label_time) as [[|]|] eqn:E.
  - apply peek_label_true in E as (raw & -> & _). eauto.
  - eauto.
  - destruct (peek_label_total lines (i + 1) label_time). congruence.
Qed.

Lemma read_content_total (lines : list pystr) (i : nat) :
  exists c i', read_content lines i = Some (c, i').
Proof.
  unfold read_content.
  destruct (peek_label lines (i + 1) label_content) as [[|]|] eqn:E.
  - apply peek_label_true in E as (raw & -> & _).
    destruct (accumulate_total lines (i + 1) 0
                [strip (replace label_content [] (strip raw))]) as [[j cl] ->].
    eauto.
  - eauto.
  - destruct (peek_label_total lines (i + 1) label_content). congruence.
Qed.

Lemma read_record_total (lines : list pystr) (i : nat) (line : pystr) :
  exists t c i', read_record lines i line = Some (but_last line, t, c, i').
Proof.
  unfold read_record.
  destruct (read_timestamp_total lines i) as (t & i1 & ->).
  destruct (read_content_total lines i1) as (c & i2 & ->).
  destruct (skip_mentions_total lines i2) as (i3 & ->).
  eauto.
Qed.

Lemma iteration_total (lines : list pystr) (i : nat) (messages : list message) :
  i < length lines ->
  exists i' messages', iteration lines i messages = Some (i', messages').
Proof.
  intros Hlt. unfold iteration.
  destruct (subscript_in_range lines i Hlt) as [raw ->].
  destruct (truthy _ && endswith _ _); [|eauto].
  destruct (read_record_total lines i (strip raw)) as (t & c & i' & ->).
  eauto.
Qed.

(** The two ways the main loop goes on from index [i]. *)
Lemma parse_loop_done (lines : list pystr) (i : nat) (messages : list message) :
  ~ i < length lines -> parse_loop lines i messages = Some messages.
Proof.
  intros H. rewrite parse_loop_equation.
  apply Nat.ltb_nlt in H. now rewrite H.
Qed.

Lemma parse_loop_step (lines : list pystr) (i : nat) (messages : list message)
    (i' : nat) (messages' : list message) :
  i < length lines ->
  iteration lines i messages = Some (i', messages') ->
  parse_loop lines i messages = parse_loop lines (i' + 1) messages'.
Proof.
  intros Hlt Hit. rewrite parse_loop_equation at 1.
  apply Nat.ltb_lt in Hlt. now rewrite Hlt, Hit.
Qed.

(** Induction on the run of the main loop from index [i]. *)
Lemma parse_loop_run_ind (lines : list pystr)
    (P : nat -> list message -> option (list message) -> Prop) :
  (forall i messages, ~ i < length lines -> P i messages (Some messages)) ->
  (forall i messages i' messages',
      i < length lines -> iteration lines i messages = Some (i', messages') ->
      P (i' + 1) messages' (parse_loop lines (i' + 1) messages') ->
      P i messages (parse_loop lines (i' + 1) messages')) ->
  forall i messages, P i messages (parse_loop lines i messages).
Proof.
  intros Hdone Hstep i.
  remember (length lines - i) as n eqn:Hn.
  revert i Hn. induction n as [n IH] using lt_wf_ind. intros i Hn messages.
  destruct (lt_dec i (length lines)) as [Hlt|Hge].
  - destruct (iteration_total lines i messages Hlt) as (i' & messages' & Hit).
    rewrite (parse_loop_step lines i messages i' messages' Hlt Hit).
    apply Hstep; auto.
    apply iteration_index in Hit.
    apply (IH (length lines - (i' + 1))); lia.
  - rewrite parse_loop_done by assumption. now apply Hdone.
Qed.

Lemma parse_loop_total (lines : list pystr) (i : nat) (messages : list message) :
  exists out, parse_loop lines i messages = Some out.
Proof.
  apply (parse_loop_run_ind lines (fun _ _ r => exists out, r = Some out)); eauto.
Qed.

(* ===================================================================== *)
(** ** Which records become messages *)
(* ===================================================================== *)

Lemma visits_parse (lines : list pystr) (i : nat) (messages : list message) :
  visits lines i messages ->
  parse_loop lines i messages = parse_chat_log lines.
Proof.
  induction 1 as [|i messages i' messages' _ IH Hlt Hit]; [reflexivity|].
  rewrite <- IH. symmetry. now apply parse_loop_step.
Qed.

Lemma append_if_content_cases (messages : list message) (u : pystr)
    (t c : option pystr) :
  (append_if_content messages u t c = messages /\ (c = None \/ c = Some []))
  \/ exists body,
       c = Some body /\ body <> [] /\
       append_if_content messages u t c = messages ++ [Message u t body].
Proof.
  destruct c as [[|x body]|]; simpl; auto.
  right. exists (x :: body). repeat split; congruence.
Qed.

(** An iteration leaves [messages] as it is or appends one message with a
    non-empty content. *)
Lemma iteration_messages (lines : list pystr) (i : nat)
    (messages : list message) (i' : nat) (messages' : list message) :
  iteration lines i messages = Some (i', messages') ->
  messages' = messages
  \/ exists m, messages' = messages ++ [m] /\ content m <> [].
Proof.
  unfold iteration. destruct (subscript lines i) as [raw|]; [|discriminate].
  destruct (truthy _ && endswith _ _).
  - destruct (read_record _ _ _) as [[[[u t] c] j]|]; [|discriminate].
    intros H; inversion H; subst.
    destruct (append_if_content_cases messages u t c)
      as [[-> _]|(body & _ & Hne & ->)]; eauto.
  - intros H; inversion H; auto.
Qed.

Lemma parse_loop_extends (lines : list pystr) (i : nat) (messages : list message) :
  forall out, parse_loop lines i messages = Some out ->
  exists more, out = messages ++ more.
Proof.
  apply (parse_loop_run_ind lines
           (fun _ messages r => forall out, r = Some out ->
                                exists more, out = messages ++ more)).
  - intros _ ms _ out H. inversion H. exists []. now rewrite app_nil_r.
  - intros j ms j' ms' _ Hit IH out Hout.
    destruct (IH out Hout) as [more ->].
    destruct (iteration_messages _ _ _ _ _ Hit) as [->|(m & -> & _)]; eauto.
    exists (m :: more). now rewrite <- app_assoc.
Qed.

Lemma parse_loop_nonempty (lines : list pystr) (i : nat) (messages : list message) :
  Forall (fun m => content m <> []) messages ->
  forall out, parse_loop lines i messages = Some out ->
  Forall (fun m => content m <> []) out.
Proof.
  apply (parse_loop_run_ind lines
           (fun _ messages r =>
              Forall (fun m => content m <> []) messages ->
              forall out, r = Some out -> Forall (fun m => content m <> []) out)).
  - intros _ ms _ Hall out H. now inversion H; subst.
  - intros j ms j' ms' _ Hit IH Hall out Hout. apply IH; auto.
    destruct (iteration_messages _ _ _ _ _ Hit) as [->|(m & -> & Hm)]; auto.
    apply Forall_app. split; auto.
Qed.

Lemma append_if_content_app (earlier messages : list message) (u : pystr)
    (t c : option pystr) :
  append_if_content (earlier ++ messages) u t c
  = earlier ++ append_if_content messages u t c.
Proof.
  destruct c as [[|x body]|]; simpl; auto. now rewrite app_assoc.
Qed.

(** An iteration reads [messages] only to append to it. *)
Lemma iteration_app (lines : list pystr) (i : nat)
    (earlier messages : list message) (i' : nat) (messages' : list message) :
  iteration lines i messages = Some (i', messages') ->
  iteration lines i (earlier ++ messages) = Some (i', earlier ++ messages').
Proof.
  unfold iteration. destruct (subscript lines i) as [raw|]; [|discriminate].
  destruct (truthy _ && endswith _ _).
  - destruct (read_record _ _ _) as [[[[u t] c] j]|]; [|discriminate].
    intros H; inversion H; subst. now rewrite append_if_content_app.
  - intros H; inversion H; subst. reflexivity.
Qed.

(** What the loop returns from index [i] on is the messages it was given
    followed by those it produces from line [i] on. *)
Lemma parse_loop_app (lines : list pystr) (i : nat) (messages : list message) :
  forall earlier,
    parse_loop lines i (earlier ++ messages)
    = option_map (app earlier) (parse_loop lines i messages).
Proof.
  apply (parse_loop_run_ind lines
           (fun i messages r =>
              forall earlier,
                parse_loop lines i (earlier ++ messages)
                = option_map (app earlier) r)).
  - intros j ms Hge earlier. now apply parse_loop_done.
  - intros j ms j' ms' Hlt Hit IH earlier.
    rewrite (parse_loop_step lines j (earlier ++ ms) j' (earlier ++ ms') Hlt
               (iteration_app lines j earlier ms j' ms' Hit)).
    apply IH.
Qed.

Lemma parse_loop_from (lines : list pystr) (i : nat)
    (messages out later : list message) :
  parse_loop lines i messages = Some out ->
  parse_loop lines i [] = Some later ->
  out = messages ++ later.
Proof.
  intros Hout Hlater.
  pose proof (parse_loop_app lines i [] messages) as H.
  rewrite app_nil_r, Hout, Hlater in H. simpl in H. congruence.
Qed.

(** C4.  [parse_chat_log] raises no error and returns a list [out] of
    messages whose content is non-empty.  At every username line that the
    main loop examines (a line whose stripped text is non-empty and ends
    with a colon, reached at index [i] with [messages] read so far), the
    record is read without error and the loop goes on from a later index;
    [out] is [messages], then the message of this record exactly when the
    record has a non-empty content, then the messages [later] that the
    loop produces from the lines after the record. *)
Theorem message_iff_content (lines : list pystr) :
  exists out,
    parse_chat_log lines = Some out /\
    Forall (fun m => content m <> []) out /\
    forall (i : nat) (messages : list message) (raw : pystr),
      visits lines i messages ->
      subscript lines i = Some raw ->
      truthy (strip raw) && endswith colon (strip raw) = true ->
      exists t c i' later,
        read_record lines i (strip raw)
        = Some (but_last (strip raw), t, c, i') /\
        i < i' + 1 /\
        parse_loop lines (i' + 1) [] = Some later /\
        (c = None \/ c = Some [] ->
         visits lines (i' + 1) messages /\
         out = messages ++ later) /\
        (forall body, c = Some body -> body <> [] ->
         visits lines (i' + 1)
           (messages ++ [Message (but_last (strip raw)) t body]) /\
         out = messages ++ Message (but_last (strip raw)) t body :: later /\
         In (Message (but_last (strip raw)) t body) out).
Proof.
  destruct (parse_loop_total lines 0 []) as [out Hout].
  exists out. split; [exact Hout|]. split.
  { apply (parse_loop_nonempty lines 0 []); auto. }
  intros i messages raw Hvis Hraw Hcand.
  destruct (read_record_total lines i (strip raw)) as (t & c & i' & Hrec).
  destruct (parse_loop_total lines (i' + 1) []) as [later Hlater].
  exists t, c, i', later.
  assert (Hlt : i < length lines).
  { apply nth_error_Some. unfold subscript in Hraw. congruence. }
  assert (Hit : iteration lines i messages
                = Some (i', append_if_content messages (but_last (strip raw)) t c)).
  { unfold iteration. now rewrite Hraw, Hcand, Hrec. }
  pose proof (read_record_index _ _ _ _ _ _ _ Hrec) as Hle.
  assert (Hrun : parse_loop lines (i' + 1)
                   (append_if_content messages (but_last (strip raw)) t c)
                 = Some out).
  { rewrite <- (parse_loop_step _ _ _ _ _ Hlt Hit).
    rewrite (visits_parse _ _ _ Hvis). exact Hout. }
  pose proof (visits_next lines i messages i' _ Hvis Hlt Hit) as Hnext.
  pose proof (parse_loop_from _ _ _ _ _ Hrun Hlater) as Hsplit.
  split; [exact Hrec|]. split; [lia|]. split; [exact Hlater|]. split.
  - intros Hc.
    assert (Hsame : append_if_content messages (but_last (strip raw)) t c
                    = messages)
      by (destruct Hc as [-> | ->]; reflexivity).
    rewrite Hsame in Hnext, Hsplit. split; assumption.
  - intros body -> Hne.
    assert (Happ : append_if_content messages (but_last (strip raw)) t (Some body)
                   = messages ++ [Message (but_last (strip raw)) t body])
      by (destruct body; [congruence | reflexivity]).
    rewrite Happ in Hnext, Hsplit. rewrite <- app_assoc in Hsplit.
    split; [exact Hnext|]. split; [exact Hsplit|].
    rewrite Hsplit. apply in_or_app. right. now left.
Qed.

Lemma message_iff_content_witness :
  visits malformed_lines 0 [] /\
  subscript malformed_lines 0 = Some (line_of "A:") /\
  truthy (strip (line_of "A:"))
  && endswith colon (strip (line_of "A:")) = true /\
  visits malformed_lines 2 [] /\
  subscript malformed_lines 2 = Some (line_of "B:") /\
  truthy (strip (line_of "B:"))
  && endswith colon (strip (line_of "B:")) = true /\
  exists out later,
    parse_chat_log malformed_lines = Some out /\
    Forall (fun m => content m <> []) out /\
    out = [] ++ Message (py "B") (Some (py "t2")) (py "x") :: later /\
    In (Message (py "B") (Some (py "t2")) (py "x")) out.
Proof.
  assert (V0 : visits malformed_lines 0 []) by constructor.
  assert (A1 : subscript malformed_lines 0 = Some (line_of "A:"))
    by (vm_compute; reflexivity).
  assert (A2 : truthy (strip (line_of "A:"))
               && endswith colon (strip (line_of "A:")) = true)
    by (vm_compute; reflexivity).
  assert (B1 : subscript malformed_lines 2 = Some (line_of "B:"))
    by (vm_compute; reflexivity).
  assert (B2 : truthy (strip (line_of "B:"))
               && endswith colon (strip (line_of "B:")) = true)
    by (vm_compute; reflexivity).
  destruct (message_iff_content malformed_lines) as (out & Hout & Hall & Hrec).
  destruct (Hrec 0 [] _ V0 A1 A2)
    as (ta & ca & ia & after_a & Hra & _ & _ & Hnone & _).
  assert (Ha : ca = None /\ ia = 1).
  { vm_compute in Hra. inversion Hra. auto. }
  destruct Ha as [-> ->].
  destruct (Hnone (or_introl eq_refl)) as [V2 _].
  destruct (Hrec 2 [] _ V2 B1 B2)
    as (tb & cb & ib & later & Hrb & _ & _ & _ & Hsome).
  assert (Hb : tb = Some (py "t2") /\ cb = Some (py "x")).
  { vm_compute in Hrb. inversion Hrb. split; reflexivity. }
  destruct Hb as [-> ->].
  assert (Hx : py "x" <> []) by (vm_compute; discriminate).
  destruct (Hsome (py "x") eq_refl Hx) as (_ & Hsplit & Hin).
  repeat (split; [assumption|]).
  exists out, later.
  split; [exact Hout|]. split; [exact Hall|]. split; [exact Hsplit | exact Hin].
Defined.

(* ===================================================================== *)
(** ** A record without a time field *)
(* ===================================================================== *)

Lemma content_label_is_not_time (s : pystr) :
  startswith label_content s = true -> startswith label_time s = false.
Proof.
  unfold label_content, label_time.
  destruct s as [|c s]; cbn [startswith]; [discriminate|].
  intros H. apply andb_true_iff in H as [Hc _]. apply N.eqb_eq in Hc.
  subst c. reflexivity.
Qed.

Lemma subscript_length (lines : list pystr) (j : nat) (raw : pystr) :
  subscript lines j = Some raw -> j < length lines.
Proof. intros H. apply nth_error_Some. unfold subscript in H. congruence. Qed.

Lemma peek_label_at (lines : list pystr) (j : nat) (label raw : pystr) :
  subscript lines j = Some raw ->
  peek_label lines j label = Some (startswith label (strip raw)).
Proof.
  intros H. unfold peek_label.
  pose proof (subscript_length _ _ _ H) as Hlt. apply Nat.ltb_lt in Hlt.
  now rewrite Hlt, H.
Qed.

(** C9, as stated, fails: a username line followed by a content line but
    no time line is not recognised as a header when it comes right after
    the content of another record; both lines are taken into that record's
    body, and no message is produced for the second username, whereas
    with a time line the second record gives its own message. *)
Lemma swallowed_record :
  subscript swallowed_lines 3 = Some (line_of "B:") /\
  truthy (strip (line_of "B:"))
  && endswith colon (strip (line_of "B:")) = true /\
  peek_label swallowed_lines 4 label_content = Some true /\
  read_content swallowed_lines 3 = Some (Some (py "x"), 4) /\
  parse_chat_log swallowed_lines
  = Some [Message (py "A") (Some (py "t")) (rows_of ["hi"; "B:"; "内容: x"]%string)] /\
  parse_chat_log timed_lines
  = Some [ Message (py "A") (Some (py "t")) (py "hi");
           Message (py "B") (Some (py "u")) (py "x") ].
Proof. vm_compute. repeat split; reflexivity. Qed.

(** C9, amended.  When the main loop examines a username line whose next
    line begins with the content label, the record has no timestamp, its
    content is read, and, if that content is non-empty, the message with
    that username, timestamp [None] and that content is appended and is
    among the messages returned. *)
Theorem content_without_time (lines : list pystr) (i : nat)
    (messages : list message) (raw next : pystr) :
  visits lines i messages ->
  subscript lines i = Some raw ->
  truthy (strip raw) && endswith colon (strip raw) = true ->
  subscript lines (i + 1) = Some next ->
  startswith label_content (strip next) = true ->
  exists body i',
    read_record lines i (strip raw)
    = Some (but_last (strip raw), None, Some body, i') /\
    (body <> [] ->
     iteration lines i messages
     = Some (i', messages ++ [Message (but_last (strip raw)) None body]) /\
     exists out,
       parse_chat_log lines = Some out /\
       In (Message (but_last (strip raw)) None body) out).
Proof.
  intros Hvis Hraw Hcand Hnext Hlabel.
  assert (Htime : read_timestamp lines i = Some (None, i)).
  { unfold read_timestamp. rewrite (peek_label_at _ _ _ _ Hnext).
    now rewrite (content_label_is_not_time _ Hlabel). }
  destruct (read_content_total lines i) as (c & i2 & Hcontent).
  assert (Hsome : exists body, c = Some body).
  { revert Hcontent. unfold read_content.
    rewrite (peek_label_at _ _ _ _ Hnext), Hlabel, Hnext.
    destruct (accumulate _ _ _ _) as [[j cl]|]; [|discriminate].
    intros H; inversion H; eauto. }
  destruct Hsome as [body ->].
  destruct (skip_mentions_total lines i2) as [i3 Hskip].
  assert (Hrec : read_record lines i (strip raw)
                 = Some (but_last (strip raw), None, Some body, i3)).
  { unfold read_record. now rewrite Htime, Hcontent, Hskip. }
  exists body, i3. split; [exact Hrec|]. intros Hne.
  assert (Hit : iteration lines i messages
                = Some (i3, messages ++ [Message (but_last (strip raw)) None body])).
  { unfold iteration. rewrite Hraw, Hcand, Hrec. simpl.
    destruct body; [congruence | reflexivity]. }
  split; [exact Hit|].
  pose proof (subscript_length _ _ _ Hraw) as Hlt.
  destruct (parse_loop_total lines (i3 + 1)
              (messages ++ [Message (but_last (strip raw)) None body]))
    as [out Hout].
  exists out. split.
  - rewrite <- (visits_parse _ _ _ Hvis).
    now rewrite (parse_loop_step _ _ _ _ _ Hlt Hit).
  - destruct (parse_loop_extends _ _ _ _ Hout) as [more ->].
    apply in_or_app. left. apply in_or_app. right. now left.
Qed.

Lemma content_without_time_witness :
  visits untimed_lines 0 [] /\
  subscript untimed_lines 0 = Some (line_of "旁白:") /\
  truthy (strip (line_of "旁白:"))
  && endswith colon (strip (line_of "旁白:")) = true /\
  subscript untimed_lines (0 + 1) = Some (line_of "内容: 天亮了") /\
  startswith label_content (strip (line_of "内容: 天亮了")) = true /\
  exists body i',
    read_record untimed_lines 0 (strip (line_of "旁白:"))
    = Some (but_last (strip (line_of "旁白:")), None, Some body, i').
Proof.
  assert (H0 : visits untimed_lines 0 []) by constructor.
  assert (H1 : subscript untimed_lines 0 = Some (line_of "旁白:"))
    by (vm_compute; reflexivity).
  assert (H2 : truthy (strip (line_of "旁白:"))
               && endswith colon (strip (line_of "旁白:")) = true)
    by (vm_compute; reflexivity).
  assert (H3 : subscript untimed_lines (0 + 1) = Some (line_of "内容: 天亮了"))
    by (vm_compute; reflexivity).
  assert (H4 : startswith label_content (strip (line_of "内容: 天亮了")) = true)
    by (vm_compute; reflexivity).
  repeat (split; [assumption|]).
  destruct (content_without_time untimed_lines 0 [] _ _ H0 H1 H2 H3 H4)
    as (body & i' & Hrec & _).
  exists body, i'. exact Hrec.
Defined.

(* ===================================================================== *)
(** ** Content accumulation *)
(* ===================================================================== *)

Lemma skipn_subscript (lines : list pystr) : forall (j : nat) (raw : pystr),
  subscript lines j = Some raw -> skipn j lines = raw :: skipn (S j) lines.
Proof.
  unfold subscript. induction lines as [|x lines IH]; intros [|j] raw H;
    simpl in *; try discriminate.
  - now inversion H.
  - now apply IH.
Qed.

Lemma truthy_false (s : pystr) : truthy s = false -> s = [].
Proof. destruct s; simpl; congruence. Qed.

Lemma accumulate_spec (lines : list pystr) (i ce : nat) (cl : list pystr)
    (i' : nat) (cl' : list pystr) :
  accumulate lines i ce cl = Some (i', cl') ->
  exists k,
    i' = i + k /\
    cl' = cl ++ map strip (firstn k (skipn (i + 1) lines)) /\
    no_double_blank (1 <=? ce) (map strip (firstn k (skipn (i + 1) lines))) = true /\
    stopped lines i' ce (map strip (firstn k (skipn (i + 1) lines))).
Proof.
  functional induction (accumulate lines i ce cl); intros Hr;
    try discriminate Hr.
  - (* the test of line 79 holds *)
    inversion Hr; subst. exists 0. rewrite Nat.add_0_r, app_nil_r.
    repeat split; auto. right. exists raw. auto.
  - (* a blank line after a blank line *)
    inversion Hr; subst. exists 0. rewrite Nat.add_0_r, app_nil_r.
    apply negb_true_iff, truthy_false in e2.
    repeat split; auto. right. exists raw. split; [exact e0|].
    right. split; [exact e2|]. left. split; [reflexivity|].
    apply Nat.leb_le in e3. lia.
  - (* a blank line after a non-blank line *)
    rewrite (skipn_subscript _ _ _ e0).
    apply negb_true_iff, truthy_false in e2. apply Nat.leb_gt in e3.
    apply IHo in Hr as (k & -> & -> & Hblank & Hstop).
    exists (S k). cbn [firstn map no_double_blank]. rewrite e2.
    replace (S (i + 1)) with (i + 1 + 1) by lia.
    replace (1 <=? consecutive_empty + 1) with true in Hblank
      by (symmetry; apply Nat.leb_le; lia).
    replace (1 <=? consecutive_empty) with false
      by (symmetry; apply Nat.leb_gt; lia).
    repeat split; [lia | now rewrite <- app_assoc | exact Hblank |].
    destruct Hstop as [Hend|(nxt & Hnxt & [Hstop|[Hnb Hbb]])];
      [now left | right; exists nxt; auto |].
    right. exists nxt. split; [exact Hnxt|]. right. split; [exact Hnb|].
    right. destruct Hbb as [[-> _]|[init ->]].
    + now exists [].
    + now exists ([] :: init).
  - (* a non-blank line *)
    rewrite (skipn_subscript _ _ _ e0). apply negb_false_iff in e2.
    apply IHo in Hr as (k & -> & -> & Hblank & Hstop).
    exists (S k). cbn [firstn map no_double_blank]. rewrite e2.
    replace (S (i + 1)) with (i + 1 + 1) by lia.
    repeat split; [lia | now rewrite <- app_assoc | exact Hblank |].
    destruct Hstop as [Hend|(nxt & Hnxt & [Hstop|[Hnb Hbb]])];
      [now left | right; exists nxt; auto |].
    right. exists nxt. split; [exact Hnxt|]. right. split; [exact Hnb|].
    destruct Hbb as [[_ Hce]|[init ->]]; [lia|].
    right. now exists (strip raw :: init).
  - (* end of input *)
    inversion Hr; subst. exists 0. rewrite Nat.add_0_r, app_nil_r.
    repeat split; auto. left. now apply Nat.ltb_nlt.
Qed.

(** [pop_trailing_empty] removes the empty entries at the end, and only
    those. *)
Lemma drop_empty_front_spec (l : list pystr) :
  exists n,
    l = repeat [] n ++ drop_empty_front l /\
    forall tl, drop_empty_front l <> [] :: tl.
Proof.
  induction l as [|x l (n & Hl & Hhd)]; simpl.
  - exists 0. split; [reflexivity | discriminate].
  - destruct x as [|c x]; simpl.
    + exists (S n). simpl. split; [now rewrite <- Hl | exact Hhd].
    + exists 0. split; [reflexivity | discriminate].
Qed.

Lemma pop_trailing_empty_spec (cl : list pystr) :
  exists n,
    cl = pop_trailing_empty cl ++ repeat [] n /\
    forall init, pop_trailing_empty cl <> init ++ [[]].
Proof.
  unfold pop_trailing_empty.
  destruct (drop_empty_front_spec (rev cl)) as (n & Hl & Hhd).
  exists n. split.
  - rewrite <- (rev_involutive cl) at 1. rewrite Hl at 1.
    now rewrite rev_app_distr, rev_repeat.
  - intros init Heq. apply (Hhd (rev init)).
    rewrite <- (rev_involutive (drop_empty_front (rev cl))), Heq.
    now rewrite rev_app_distr.
Qed.

(** C5, as stated, fails: an accumulated line loses its leading and
    trailing spaces, not only its line terminator. *)
Lemma accumulated_line_is_stripped :
  subscript indented_lines 2 = Some (line_of "  y  ") /\
  spec_verbatim_line (line_of "  y  ") = py "  y  " /\
  read_content indented_lines 0 = Some (Some (rows_of ["x"; "y"]%string), 2) /\
  parse_chat_log indented_lines
  = Some [Message (py "A") None (rows_of ["x"; "y"]%string)] /\
  rows_of ["x"; "y"]%string
  <> join newline [py "x"; spec_verbatim_line (line_of "  y  ")].
Proof. vm_compute. repeat split; try reflexivity. discriminate. Qed.

(** C5, amended.  The body of a record is made of the first content line
    (label removed, stripped) and of the following source lines, each
    stripped of the white space at both of its ends, a blank line giving an
    empty entry; no two blank lines in a row are accumulated, and the loop
    stops at the end of the input, at a line that passes the test of line
    79, or at a blank line that follows an accumulated blank line; the
    empty entries at the end are dropped and what is left is joined by
    newlines. *)
Theorem content_accumulation (lines : list pystr) (i : nat) (body : pystr)
    (i' : nat) :
  read_content lines i = Some (Some body, i') ->
  exists raw k n kept,
    subscript lines (i + 1) = Some raw /\
    i' = i + 1 + k /\
    no_double_blank false (map strip (firstn k (skipn (i + 2) lines))) = true /\
    stopped lines i' 0 (map strip (firstn k (skipn (i + 2) lines))) /\
    strip (replace label_content [] (strip raw))
      :: map strip (firstn k (skipn (i + 2) lines))
    = kept ++ repeat [] n /\
    (forall init, kept <> init ++ [[]]) /\
    body = join newline kept.
Proof.
  unfold read_content.
  destruct (peek_label lines (i + 1) label_content) as [[|]|]; try discriminate.
  destruct (subscript lines (i + 1)) as [raw|] eqn:Hraw; [|discriminate].
  destruct (accumulate _ _ _ _) as [[j cl]|] eqn:Hacc; [|discriminate].
  intros H; inversion H; subst; clear H.
  apply accumulate_spec in Hacc as (k & -> & -> & Hblank & Hstop).
  replace (i + 1 + 1) with (i + 2) in * by lia.
  destruct (pop_trailing_empty_spec
              ([strip (replace label_content [] (strip raw))]
               ++ map strip (firstn k (skipn (i + 2) lines))))
    as (n & Hkept & Hlast).
  exists raw, k, n, (pop_trailing_empty
                       ([strip (replace label_content [] (strip raw))]
                        ++ map strip (firstn k (skipn (i + 2) lines)))).
  repeat split; auto.
Qed.

Lemma content_accumulation_witness :
  read_content blank_lines_text 1
  = Some (Some (rows_of ["第一行"; ""; "第二行"]%string), 5) /\
  exists raw k n kept,
    subscript blank_lines_text (1 + 1) = Some raw /\
    5 = 1 + 1 + k /\
    strip (replace label_content [] (strip raw))
      :: map strip (firstn k (skipn (1 + 2) blank_lines_text))
    = kept ++ repeat [] n /\
    rows_of ["第一行"; ""; "第二行"]%string = join newline kept.
Proof.
  assert (H : read_content blank_lines_text 1
              = Some (Some (rows_of ["第一行"; ""; "第二行"]%string), 5))
    by (vm_compute; reflexivity).
  split; [exact H|].
  destruct (content_accumulation blank_lines_text 1 _ 5 H)
    as (raw & k & n & kept & H1 & H2 & _ & _ & H3 & _ & H4).
  exists raw, k, n, kept. auto.
Defined.

(* ===================================================================== *)
(** ** Removal of the content label *)
(* ===================================================================== *)

Lemma replace_hit (o : char) (old' new : pystr) (c : char) (s' : pystr) :
  startswith (o :: old') (c :: s') = true ->
  replace (o :: old') new (c :: s')
  = new ++ replace (o :: old') new (skipn (length old') s').
Proof. intros H. rewrite replace_equation at 1. now rewrite H. Qed.

Lemma replace_miss (o : char) (old' new : pystr) (c : char) (s' : pystr) :
  startswith (o :: old') (c :: s') = false ->
  replace (o :: old') new (c :: s') = c :: replace (o :: old') new s'.
Proof. intros H. rewrite replace_equation at 1. now rewrite H. Qed.

Lemma replace_empty (o : char) (old' new : pystr) :
  replace (o :: old') new [] = [].
Proof. now rewrite replace_equation. Qed.

Lemma startswith_self_app (p t : pystr) : startswith p (p ++ t) = true.
Proof.
  induction p as [|a p IH]; simpl; [reflexivity|].
  now rewrite N.eqb_refl, IH.
Qed.

Lemma startswith_length (p s : pystr) :
  startswith p s = true -> length p <= length s.
Proof.
  revert s; induction p as [|a p IH]; intros [|b s]; simpl; intros H;
    try lia; try discriminate.
  apply andb_true_iff in H as [_ H]. apply IH in H. lia.
Qed.

Lemma startswith_app_long (p s t : pystr) :
  length p <= length s -> startswith p (s ++ t) = startswith p s.
Proof.
  revert s; induction p as [|a p IH]; intros [|b s]; simpl; intros H;
    try reflexivity; try lia.
  rewrite IH by lia. reflexivity.
Qed.

(** The content label does not overlap itself, so an occurrence that
    follows [a] cannot begin inside [a]. *)
Lemma startswith_label_app (x : char) (a b : pystr) :
  startswith label_content ((x :: a) ++ label_content ++ b)
  = startswith label_content (x :: a).
Proof.
  destruct a as [|y [|z a]].
  - unfold label_content. cbn [app startswith].
    now rewrite !andb_false_r.
  - unfold label_content. cbn [app startswith].
    replace (23481 =? y)%N with ((23481 =? y)%N && true) at 2
      by apply andb_true_r.
    destruct (20869 =? x)%N, (23481 =? y)%N; reflexivity.
  - apply startswith_app_long. simpl. lia.
Qed.

(** Every occurrence of the label is deleted: wherever the label stands in
    the string, the result is what is left of the part before it followed
    by what is left of the part after it. *)
Lemma replace_label_split (a b : pystr) :
  replace label_content [] (a ++ label_content ++ b)
  = replace label_content [] a ++ replace label_content [] b.
Proof.
  remember (length a) as n eqn:Hn. revert a Hn.
  induction n as [n IH] using lt_wf_ind. intros a Hn.
  destruct a as [|x a].
  - unfold label_content. cbn [app].
    rewrite replace_hit by reflexivity.
    now rewrite replace_empty.
  - pose proof (startswith_label_app x a b) as Hsame.
    unfold label_content at 1 3 in Hsame.
    unfold label_content at 1 3 4.
    cbn [app] in *.
    match type of Hsame with _ = ?r => destruct r eqn:Hhit end.
    + rewrite !replace_hit by assumption. cbn [app length].
      apply startswith_length in Hhit. simpl in Hhit.
      rewrite skipn_app.
      replace (2 - length a) with 0 by lia. cbn [skipn].
      apply (IH (length (skipn 2 a))); [|reflexivity].
      rewrite length_skipn. subst n. simpl. lia.
    + rewrite !replace_miss by assumption. cbn [app]. f_equal.
      apply (IH (length a)); [subst n; simpl; lia | reflexivity].
Qed.

(** C10.  When the line after the username (and time) line starts with the
    content label and contains the label once more, the first line of the
    body is built from that line stripped, with both occurrences of the
    label deleted (and so every further one in [a] and [b]), and stripped
    again; the text of the line loses the characters of the label. *)
Theorem content_label_deleted_everywhere (lines : list pystr) (i : nat)
    (raw a b : pystr) :
  subscript lines (i + 1) = Some raw ->
  strip raw = label_content ++ a ++ label_content ++ b ->
  replace label_content [] (strip raw)
  = replace label_content [] a ++ replace label_content [] b
  /\ exists k i',
       read_content lines i
       = Some (Some (join newline
                       (pop_trailing_empty
                          (strip (replace label_content [] a
                                  ++ replace label_content [] b)
                           :: map strip (firstn k (skipn (i + 2) lines))))),
               i').
Proof.
  intros Hraw Hform.
  assert (Hfirst : replace label_content [] (strip raw)
                   = replace label_content [] a ++ replace label_content [] b).
  { rewrite Hform.
    change (label_content ++ a ++ label_content ++ b)
      with ([] ++ label_content ++ (a ++ label_content ++ b)).
    rewrite !replace_label_split.
    unfold label_content at 1. now rewrite replace_empty. }
  split; [exact Hfirst|].
  assert (Hpeek : peek_label lines (i + 1) label_content = Some true).
  { rewrite (peek_label_at _ _ _ _ Hraw), Hform.
    now rewrite startswith_self_app. }
  unfold read_content. rewrite Hpeek, Hraw.
  destruct (accumulate_total lines (i + 1) 0
              [strip (replace label_content [] (strip raw))]) as [[i' cl] Hacc].
  rewrite Hacc.
  apply accumulate_spec in Hacc as (k & -> & -> & _ & _).
  replace (i + 1 + 1) with (i + 2) by lia.
  exists k, (i + 1 + k). now rewrite Hfirst.
Qed.

Lemma content_label_deleted_everywhere_witness :
  subscript label_twice_lines (0 + 1) = Some (line_of "内容: 格式是 内容:文字") /\
  strip (line_of "内容: 格式是 内容:文字")
  = label_content ++ py " 格式是 " ++ label_content ++ py "文字" /\
  replace label_content [] (strip (line_of "内容: 格式是 内容:文字")) = py " 格式是 文字".
Proof.
  assert (H1 : subscript label_twice_lines (0 + 1)
               = Some (line_of "内容: 格式是 内容:文字"))
    by (vm_compute; reflexivity).
  assert (H2 : strip (line_of "内容: 格式是 内容:文字")
               = label_content ++ py " 格式是 " ++ label_content ++ py "文字")
    by (vm_compute; reflexivity).
  split; [exact H1|]. split; [exact H2|].
  rewrite (proj1 (content_label_deleted_everywhere label_twice_lines 0 _ _ _ H1 H2)).
  vm_compute. reflexivity.
Defined.

(* ===================================================================== *)
(** ** Further properties of the segmenter *)
(* ===================================================================== *)

Section SegmenterMore.

Lemma subsequence_refl (A : Type) (l : list A) : subsequence l l.
Proof.
  induction l; [apply subsequence_nil | now apply subsequence_keep].
Qed.

Lemma subsequence_snoc_skip (A : Type) (a b : list A) (x : A) :
  subsequence a b -> subsequence a (b ++ [x]).
Proof.
  induction 1; simpl.
  - apply subsequence_skip. constructor.
  - now apply subsequence_skip.
  - now apply subsequence_keep.
Qed.

Lemma subsequence_snoc_keep (A : Type) (a b : list A) (x : A) :
  subsequence a b -> subsequence (a ++ [x]) (b ++ [x]).
Proof.
  induction 1; simpl.
  - apply subsequence_keep. constructor.
  - now apply subsequence_skip.
  - now apply subsequence_keep.
Qed.

(** What one message does to the list the function would return, in a
    state that satisfies the invariant. *)
Lemma seg_finish_step (st : seg_state) (msg : message) :
  seg_inv st ->
  (is_start_marker (content msg) = true /\
   seg_finish (seg_step st msg) = seg_finish st ++ [[msg]])
  \/ (is_start_marker (content msg) = false /\
      in_session st = true /\
      seg_finish st = sessions st ++ [current_session st] /\
      current_session st <> [] /\
      seg_finish (seg_step st msg)
      = sessions st ++ [current_session st ++ [msg]])
  \/ (is_start_marker (content msg) = false /\
      in_session st = false /\
      seg_step st msg = st).
Proof.
  intros Hinv. unfold seg_step.
  destruct (is_start_marker (content msg)) eqn:Hstart.
  - left. split; [reflexivity|]. unfold seg_finish at 1, open_nonempty at 1.
    reflexivity.
  - destruct (in_session st) eqn:Hin; [|right; right; auto].
    right. left.
    destruct (open_shape_inside st Hinv Hin) as [Hopen (m & rest & Hcur & _)].
    repeat split; auto.
    + unfold seg_finish. now rewrite Hopen.
    + rewrite Hcur. discriminate.
    + destruct (is_end_marker (content msg)).
      * reflexivity.
      * unfold seg_finish, open_nonempty. simpl.
        rewrite Hcur. reflexivity.
Qed.

(** The messages held by a reachable state are those the function would
    return, flattened. *)
Lemma held_finish (st : seg_state) :
  seg_inv st -> concat (seg_finish st) = held st.
Proof.
  intros [_ Hc]. unfold seg_finish, open_nonempty, held.
  destruct (in_session st); simpl.
  - destruct Hc as (m & rest & -> & _). rewrite concat_app. simpl.
    now rewrite app_nil_r.
  - rewrite Hc. now rewrite app_nil_r.
Qed.

(** Sessions already emitted are never touched again. *)
Lemma seg_step_prefix (pre : list (list message)) (st : seg_state)
    (msg : message) :
  seg_step (SegState (pre ++ sessions st) (in_session st) (current_session st)) msg
  = SegState (pre ++ sessions (seg_step st msg))
             (in_session (seg_step st msg))
             (current_session (seg_step st msg)).
Proof.
  destruct st as [ss inside current].
  unfold seg_step, open_nonempty. simpl.
  destruct (is_start_marker (content msg)); simpl.
  - destruct (inside && _); simpl; now rewrite ?app_assoc.
  - destruct inside; simpl; [|reflexivity].
    destruct (is_end_marker (content msg)); simpl; now rewrite ?app_assoc.
Qed.

Lemma fold_seg_prefix (messages : list message) :
  forall (pre : list (list message)) (st : seg_state),
    seg_finish (fold_left seg_step messages
                  (SegState (pre ++ sessions st) (in_session st)
                            (current_session st)))
    = pre ++ seg_finish (fold_left seg_step messages st).
Proof.
  induction messages as [|m ms IH]; intros pre st; simpl.
  - unfold seg_finish, open_nonempty. simpl.
    destruct (in_session st && _); now rewrite ?app_assoc.
  - rewrite seg_step_prefix. apply IH.
Qed.

(** The run over the tail of a session, from the state reached after its
    start marker: the session is closed if the tail ends with the end
    marker, and stays open otherwise. *)
Lemma fold_session_tail (rest : list message) :
  forall (acc : list (list message)) (current : list message),
    no_start rest -> no_end (removelast rest) ->
    fold_left seg_step rest (SegState acc true current)
    = SegState acc true (current ++ rest)
    \/ fold_left seg_step rest (SegState acc true current)
       = SegState (acc ++ [current ++ rest]) false [].
Proof.
  induction rest as [|x rest IH]; intros acc current Hs He; simpl.
  - left. now rewrite app_nil_r.
  - inversion Hs as [|? ? Hx Hs']; subst.
    unfold seg_step at 2 4. rewrite Hx. simpl.
    destruct (is_end_marker (content x)) eqn:Hend.
    + destruct rest as [|y rest]; [right; reflexivity|].
      simpl in He. inversion He; subst. congruence.
    + assert (He' : no_end (removelast rest)).
      { destruct rest as [|y rest]; [constructor|].
        simpl in He. now inversion He. }
      destruct (IH acc (current ++ [x]) Hs' He') as [-> | ->];
        rewrite <- app_assoc; auto.
Qed.

(** The run over a list of well-shaped sessions laid end to end. *)
Lemma fold_closed_sessions (l : list (list message)) :
  Forall closed_shape l ->
  forall acc,
    seg_finish (fold_left seg_step (concat l) (SegState acc false []))
    = acc ++ l
    /\ forall current, current <> [] ->
       seg_finish (fold_left seg_step (concat l) (SegState acc true current))
       = acc ++ [current] ++ l.
Proof.
  induction 1 as [|s l (m & rest & -> & Hm & Hs & He) _ IH]; intros acc.
  - simpl. split.
    + unfold seg_finish, open_nonempty. simpl. now rewrite app_nil_r.
    + intros current Hne. unfold seg_finish, open_nonempty. simpl.
      destruct current; [congruence | reflexivity].
  - change (concat ((m :: rest) :: l)) with (m :: (rest ++ concat l)).
    assert (Hgo : forall acc',
               seg_finish (fold_left seg_step (rest ++ concat l)
                             (SegState acc' true [m]))
               = acc' ++ [m :: rest] ++ l).
    { intros acc'. rewrite fold_left_app.
      destruct (fold_session_tail rest acc' [m] Hs He) as [-> | ->].
      - apply (proj2 (IH acc')). discriminate.
      - rewrite (proj1 (IH (acc' ++ [[m] ++ rest]))).
        now rewrite <- app_assoc. }
    unfold starts in Hm. split.
    + cbn [fold_left]. unfold seg_step at 2. rewrite Hm.
      unfold open_nonempty. cbn [in_session sessions andb]. apply Hgo.
    + intros current Hne. cbn [fold_left]. unfold seg_step at 2. rewrite Hm.
      unfold open_nonempty. cbn [in_session sessions current_session andb].
      destruct current as [|c current]; [congruence|].
      rewrite Hgo. now rewrite <- app_assoc.
Qed.

End SegmenterMore.

(** The first messages of the sessions are the start markers of the
    input. *)
Lemma extract_heads (messages : list message) :
  map (@hd_error message) (extract_rpg_sessions messages)
  = map Some (start_markers messages).
Proof.
  unfold extract_rpg_sessions, start_markers.
  induction messages as [|m ms IH] using rev_ind; [reflexivity|].
  rewrite seg_loop_snoc, filter_app, map_app. simpl.
  destruct (seg_finish_step (seg_loop ms) m (seg_loop_inv ms))
    as [[Hs ->] | [(Hs & _ & Hfin & Hne & ->) | (Hs & _ & ->)]];
    rewrite Hs; simpl.
  - now rewrite map_app, IH.
  - rewrite app_nil_r, <- IH, Hfin, !map_app. simpl.
    destruct (current_session (seg_loop ms)); [congruence | reflexivity].
  - now rewrite app_nil_r.
Qed.

Lemma start_markers_nil (messages : list message) :
  start_markers messages = [] <->
  Forall (fun m => is_start_marker (content m) = false) messages.
Proof.
  unfold start_markers. induction messages as [|m ms IH]; simpl.
  - split; auto.
  - destruct (is_start_marker (content m)) eqn:Hm; split.
    + discriminate.
    + intros H. inversion H; subst. congruence.
    + intros H. constructor; [exact Hm | now apply IH].
    + intros H. inversion H; subst. now apply IH.
Qed.

(** X1.  The first messages of the sessions returned are the messages of
    the input that match the start pattern, in their order: each start
    marker opens one session, and each of these sessions is returned; so
    there are as many sessions as start markers. *)
Theorem one_session_per_start_marker (messages : list message) :
  map (@hd_error message) (extract_rpg_sessions messages)
  = map Some (start_markers messages)
  /\ length (extract_rpg_sessions messages) = length (start_markers messages).
Proof.
  split; [apply extract_heads|].
  rewrite <- (length_map (@hd_error message)), extract_heads.
  apply length_map.
Qed.

(** X2.  No session is returned exactly when no message of the input
    matches the start pattern. *)
Theorem no_sessions_iff_no_start_marker (messages : list message) :
  extract_rpg_sessions messages = [] <->
  Forall (fun m => is_start_marker (content m) = false) messages.
Proof.
  rewrite <- start_markers_nil.
  pose proof (extract_heads messages) as H. split; intros Hnil.
  - rewrite Hnil in H. simpl in H.
    destruct (start_markers messages); [reflexivity | discriminate].
  - rewrite Hnil in H. simpl in H.
    destruct (extract_rpg_sessions messages); [reflexivity | discriminate].
Qed.

(** X3.  The messages of the sessions returned, session after session, are
    messages of the input in their original order, each taken at most
    once: the function drops messages and never adds, repeats or reorders
    one. *)
Theorem sessions_keep_order (messages : list message) :
  subsequence (concat (extract_rpg_sessions messages)) messages.
Proof.
  unfold extract_rpg_sessions.
  induction messages as [|m ms IH] using rev_ind; [constructor|].
  rewrite seg_loop_snoc.
  destruct (seg_finish_step (seg_loop ms) m (seg_loop_inv ms))
    as [[_ ->] | [(_ & _ & Hfin & _ & ->) | (_ & _ & ->)]].
  - rewrite concat_app. simpl. now apply subsequence_snoc_keep.
  - rewrite Hfin in IH. rewrite concat_app in *. simpl in *.
    rewrite app_nil_r in *. rewrite app_assoc.
    now apply subsequence_snoc_keep.
  - now apply subsequence_snoc_skip.
Qed.

(** X4.  Segmentation splits at a boundary: when the loop is outside a
    session after [a], or [b] begins with a start marker, the sessions of
    [a ++ b] are those of [a] followed by those of [b]. *)
Theorem extract_splits_at_boundary (a b : list message) :
  in_session (seg_loop a) = false
  \/ (exists m b', b = m :: b' /\ is_start_marker (content m) = true) ->
  extract_rpg_sessions (a ++ b)
  = extract_rpg_sessions a ++ extract_rpg_sessions b.
Proof.
  intros Hcase. unfold extract_rpg_sessions at 1 3, seg_loop.
  rewrite fold_left_app. fold (seg_loop a).
  pose proof (seg_loop_inv a) as Hinv.
  destruct Hcase as [Hout | (m & b' & -> & Hm)].
  - destruct Hinv as [_ Hcur]. rewrite Hout in Hcur.
    assert (Hst : seg_loop a
                  = SegState (sessions (seg_loop a) ++ sessions seg_init)
                             (in_session seg_init) (current_session seg_init)).
    { destruct (seg_loop a) as [ss inside current]. simpl in *.
      now rewrite Hout, Hcur, app_nil_r. }
    rewrite Hst at 1. rewrite fold_seg_prefix. f_equal.
    unfold extract_rpg_sessions, seg_finish, open_nonempty.
    now rewrite Hout.
  - cbn [fold_left]. unfold seg_step at 2 4. rewrite Hm.
    change (SegState
              (if open_nonempty (seg_loop a)
               then sessions (seg_loop a) ++ [current_session (seg_loop a)]
               else sessions (seg_loop a)) true [m])
      with (SegState (seg_finish (seg_loop a)) true [m]).
    change (open_nonempty seg_init) with false. cbn [sessions seg_init].
    rewrite <- (app_nil_r (seg_finish (seg_loop a))) at 1.
    apply (fold_seg_prefix b' (seg_finish (seg_loop a)) (SegState [] true [m])).
Qed.

Lemma extract_splits_at_boundary_witness :
  (in_session (seg_loop [msg_talk "Bob" "hello"; msg_start1;
                         msg_talk "梦之海" "我走进酒馆"]) = false
   \/ exists m b',
        [msg_start2; msg_talk "Ga1axian" "继续"; msg_save] = m :: b' /\
        is_start_marker (content m) = true) /\
  extract_rpg_sessions
    ([msg_talk "Bob" "hello"; msg_start1; msg_talk "梦之海" "我走进酒馆"]
     ++ [msg_start2; msg_talk "Ga1axian" "继续"; msg_save])
  = extract_rpg_sessions
      [msg_talk "Bob" "hello"; msg_start1; msg_talk "梦之海" "我走进酒馆"]
    ++ extract_rpg_sessions [msg_start2; msg_talk "Ga1axian" "继续"; msg_save].
Proof.
  assert (H : in_session (seg_loop [msg_talk "Bob" "hello"; msg_start1;
                                    msg_talk "梦之海" "我走进酒馆"]) = false
              \/ exists m b',
                   [msg_start2; msg_talk "Ga1axian" "继续"; msg_save] = m :: b' /\
                   is_start_marker (content m) = true).
  { right. exists msg_start2, [msg_talk "Ga1axian" "继续"; msg_save].
    split; [reflexivity | vm_compute; reflexivity]. }
  split; [exact H|].
  exact (extract_splits_at_boundary _ _ H).
Defined.

(** X5.  In every session returned, no message after the first matches the
    start pattern, and no message before the last one is the end marker:
    a session holds one start marker, at its head, and at most one end
    marker, at its end. *)
Theorem markers_only_at_the_ends (messages session : list message) :
  In session (extract_rpg_sessions messages) ->
  Forall (fun m => is_start_marker (content m) = false) (tl session) /\
  Forall (fun m => content m <> save_marker) (removelast (tl session)).
Proof.
  intros Hin.
  pose proof (extract_closed messages) as Hall.
  rewrite Forall_forall in Hall.
  destruct (Hall _ Hin) as (m & rest & -> & _ & Hs & He).
  split; [exact Hs|]. simpl.
  eapply Forall_impl; [|exact He].
  intros x Hx Heq. unfold is_end_marker in Hx.
  rewrite Heq in Hx. apply not_true_iff_false in Hx. apply Hx.
  now apply eqb_eq.
Qed.

Lemma markers_only_at_the_ends_witness :
  In [msg_start2; msg_talk "Ga1axian" "继续"; msg_save]
     (extract_rpg_sessions sample_messages) /\
  Forall (fun m => content m <> save_marker)
         (removelast (tl [msg_start2; msg_talk "Ga1axian" "继续"; msg_save])).
Proof.
  assert (H : In [msg_start2; msg_talk "Ga1axian" "继续"; msg_save]
                (extract_rpg_sessions sample_messages)).
  { vm_compute. right. left. reflexivity. }
  split; [exact H|].
  exact (proj2 (markers_only_at_the_ends sample_messages _ H)).
Defined.

(** X6.  Segmenting the flattened result gives the same sessions again:
    laid end to end, the sessions returned are cut at the same places. *)
Theorem resegment_flattened (messages : list message) :
  extract_rpg_sessions (concat (extract_rpg_sessions messages))
  = extract_rpg_sessions messages.
Proof.
  unfold extract_rpg_sessions at 1. unfold seg_loop.
  apply (proj1 (fold_closed_sessions _ (extract_closed messages) [])).
Qed.

(* ===================================================================== *)
(** ** Further properties of the parser *)
(* ===================================================================== *)

Section ParserMore.

Variable lines : list pystr.

(** An iteration appends nothing, or the record read at its index. *)
Lemma iteration_origin (i : nat) (messages : list message) (i' : nat)
    (messages' : list message) :
  iteration lines i messages = Some (i', messages') ->
  messages' = messages
  \/ exists m, messages' = messages ++ [m] /\ origin lines i m.
Proof.
  unfold iteration. destruct (subscript lines i) as [raw|] eqn:Hraw;
    [|discriminate].
  destruct (truthy _ && endswith _ _) eqn:Hcand.
  - destruct (read_record _ _ _) as [[[[u t] c] j]|] eqn:Hrec; [|discriminate].
    intros H; inversion H; subst.
    destruct (append_if_content_cases messages u t c)
      as [[-> _]|(body & -> & Hne & ->)]; [now left|].
    right. exists (Message u t body). split; [reflexivity|].
    exists raw, i'. auto.
  - intros H; inversion H; auto.
Qed.

Lemma StronglySorted_snoc (js : list nat) (i : nat) :
  StronglySorted lt js -> Forall (fun j => j < i) js ->
  StronglySorted lt (js ++ [i]).
Proof.
  induction 1 as [|j js Hs IH Hj]; intros Hall; simpl.
  - repeat constructor.
  - inversion Hall; subst. constructor; [now apply IH|].
    apply Forall_app. split; auto.
Qed.

Lemma parse_loop_origins (i : nat) (messages : list message) :
  forall js,
    Forall2 (origin lines) js messages ->
    StronglySorted lt js -> Forall (fun j => j < i) js ->
    forall out, parse_loop lines i messages = Some out ->
    exists js', StronglySorted lt js' /\ Forall2 (origin lines) js' out.
Proof.
  apply (parse_loop_run_ind lines
           (fun i messages r =>
              forall js,
                Forall2 (origin lines) js messages ->
                StronglySorted lt js -> Forall (fun j => j < i) js ->
                forall out, r = Some out ->
                exists js', StronglySorted lt js' /\
                            Forall2 (origin lines) js' out)).
  - intros _ ms _ js Hf Hs _ out H. inversion H; subst. eauto.
  - intros j ms j' ms' _ Hit IH js Hf Hs Hlt out Hout.
    pose proof (iteration_index _ _ _ _ _ Hit) as Hle.
    destruct (iteration_origin _ _ _ _ Hit) as [->|(m & -> & Hm)].
    + apply (IH js); auto.
      eapply Forall_impl; [|exact Hlt]. simpl. intros; lia.
    + apply (IH (js ++ [j])); auto.
      * apply Forall2_app; auto.
      * now apply StronglySorted_snoc.
      * apply Forall_app. split.
        -- eapply Forall_impl; [|exact Hlt]. simpl. intros; lia.
        -- constructor; [lia | constructor].
Qed.

(** Username lines from index [i] on. *)
Definition username_lines_from (i : nat) : nat :=
  length (filter username_line (skipn i lines)).

Lemma username_lines_from_S (i : nat) :
  username_lines_from (S i) <= username_lines_from i.
Proof.
  unfold username_lines_from.
  destruct (subscript lines i) as [raw|] eqn:Hraw.
  - rewrite (skipn_subscript _ _ _ Hraw). simpl.
    destruct (username_line raw); simpl; lia.
  - unfold subscript in Hraw. apply nth_error_None in Hraw.
    rewrite !skipn_all2 by lia. reflexivity.
Qed.

Lemma username_lines_from_mono (i j : nat) :
  i <= j -> username_lines_from j <= username_lines_from i.
Proof.
  induction 1 as [|j _ IH]; [reflexivity|].
  etransitivity; [apply username_lines_from_S | exact IH].
Qed.

Lemma parse_loop_count (i : nat) (messages : list message) :
  forall out, parse_loop lines i messages = Some out ->
  length out <= length messages + username_lines_from i.
Proof.
  apply (parse_loop_run_ind lines
           (fun i messages r =>
              forall out, r = Some out ->
              length out <= length messages + username_lines_from i)).
  - intros j ms _ out H. inversion H; subst. lia.
  - intros j ms j' ms' Hlt Hit IH out Hout.
    pose proof (iteration_index _ _ _ _ _ Hit) as Hle.
    pose proof (IH out Hout) as Hbound.
    pose proof (username_lines_from_mono (S j) (j' + 1) ltac:(lia)) as Hmono.
    destruct (iteration_origin _ _ _ _ Hit)
      as [->|(m & -> & raw & k & Hraw & Hcand & _)].
    + pose proof (username_lines_from_S j). lia.
    + rewrite length_app in Hbound. simpl in Hbound.
      assert (Hj : username_lines_from j = S (username_lines_from (S j))).
      { unfold username_lines_from. rewrite (skipn_subscript _ _ _ Hraw).
        simpl. now rewrite Hcand. }
      lia.
Qed.

End ParserMore.

(** X7.  Every message returned is the record read at some username line,
    and the messages come in the order of these lines: there are indices,
    strictly increasing, one per message, such that the message is made of
    the username, timestamp and content read at that index. *)
Theorem messages_follow_line_order (lines : list pystr) (out : list message) :
  parse_chat_log lines = Some out ->
  exists js, StronglySorted lt js /\ Forall2 (origin lines) js out.
Proof.
  intros H. apply (parse_loop_origins lines 0 [] []); auto; constructor.
Qed.

Lemma messages_follow_line_order_witness :
  parse_chat_log timed_lines
  = Some [ Message (py "A") (Some (py "t")) (py "hi");
           Message (py "B") (Some (py "u")) (py "x") ] /\
  exists js,
    StronglySorted lt js /\
    Forall2 (origin timed_lines) js
      [ Message (py "A") (Some (py "t")) (py "hi");
        Message (py "B") (Some (py "u")) (py "x") ].
Proof.
  assert (H : parse_chat_log timed_lines
              = Some [ Message (py "A") (Some (py "t")) (py "hi");
                       Message (py "B") (Some (py "u")) (py "x") ])
    by (vm_compute; reflexivity).
  split; [exact H|].
  exact (messages_follow_line_order timed_lines _ H).
Defined.

(** X8.  There are never more messages than username lines; in particular
    a log with no line ending in a colon gives no message. *)
Theorem messages_bounded_by_username_lines (lines : list pystr) :
  exists out,
    parse_chat_log lines = Some out /\
    length out <= length (filter username_line lines).
Proof.
  destruct (parse_loop_total lines 0 []) as [out Hout].
  exists out. split; [exact Hout|].
  apply (parse_loop_count lines 0 []) in Hout. exact Hout.
Qed.

(* ===================================================================== *)
(** ** White space around what the parser reads *)
(* ===================================================================== *)

Section Trimmed.

Lemma lstrip_head (s : pystr) (c : char) (u : pystr) :
  lstrip s = c :: u -> isspace c = false.
Proof.
  induction s as [|x s IH]; simpl; [discriminate|].
  destruct (isspace x) eqn:Hx; [exact IH|].
  intros H; inversion H; subst. exact Hx.
Qed.

Lemma lstrip_fixed (c : char) (u : pystr) :
  isspace c = false -> lstrip (c :: u) = c :: u.
Proof. intros H. simpl. now rewrite H. Qed.

Lemma lstrip_snoc (a : pystr) (c : char) :
  isspace c = false -> lstrip (a ++ [c]) = lstrip a ++ [c].
Proof.
  intros Hc. induction a as [|x a IH]; simpl.
  - now rewrite Hc.
  - destruct (isspace x); [exact IH | reflexivity].
Qed.

(** A string that ends with a character that is not white space is left
    as it is by [rstrip]. *)
Lemma rstrip_fixed (w : pystr) (c : char) :
  isspace c = false -> rstrip (w ++ [c]) = w ++ [c].
Proof.
  intros Hc. unfold rstrip. rewrite rev_app_distr. simpl.
  rewrite Hc. simpl. now rewrite rev_involutive.
Qed.

(** The result of [strip] is empty, or begins and ends with characters
    that are not white space. *)
Lemma strip_ends (s : pystr) :
  strip s = []
  \/ exists c d w v,
       isspace c = false /\ isspace d = false /\
       strip s = c :: w /\ strip s = v ++ [d].
Proof.
  unfold strip, rstrip.
  destruct (lstrip s) as [|c t] eqn:Ht; [now left|].
  pose proof (lstrip_head _ _ _ Ht) as Hc.
  simpl rev. rewrite (lstrip_snoc _ _ Hc), rev_app_distr. simpl.
  right.
  destruct (lstrip (rev t)) as [|d u] eqn:Hu.
  - exists c, c, [], []. auto.
  - pose proof (lstrip_head _ _ _ Hu) as Hd.
    exists c, d, (rev (d :: u)), (c :: rev u). simpl.
    repeat split; auto.
Qed.

Lemma strip_idempotent (s : pystr) : strip (strip s) = strip s.
Proof.
  destruct (strip_ends s) as [-> | (c & d & w & v & Hc & Hd & Hw & Hv)];
    [reflexivity|].
  unfold strip at 1. rewrite Hw, (lstrip_fixed _ _ Hc), <- Hw, Hv.
  now apply rstrip_fixed.
Qed.

Lemma last_cases (A : Type) (l : list A) :
  l = [] \/ exists init x, l = init ++ [x].
Proof.
  induction l as [|x l _] using rev_ind; [now left | right; eauto].
Qed.

Lemma join_last (sep : pystr) (init : list pystr) (x : pystr) :
  exists w, join sep (init ++ [x]) = w ++ x.
Proof.
  induction init as [|y init [w IH]].
  - now exists [].
  - simpl app. destruct (init ++ [x]) as [|z l] eqn:E.
    + destruct init; discriminate.
    + exists (y ++ sep ++ w).
      change (join sep (y :: z :: l)) with (y ++ sep ++ join sep (z :: l)).
      rewrite IH. now rewrite <- !app_assoc.
Qed.

(** A non-empty content read by [read_content] ends with a character that
    is not white space. *)
Lemma read_content_trimmed (lines : list pystr) (i : nat) (body : pystr)
    (i' : nat) :
  read_content lines i = Some (Some body, i') ->
  body <> [] -> rstrip body = body.
Proof.
  unfold read_content.
  destruct (peek_label lines (i + 1) label_content) as [[|]|];
    try discriminate.
  destruct (subscript lines (i + 1)) as [raw|]; [|discriminate].
  destruct (accumulate _ _ _ _) as [[j cl]|] eqn:Hacc; [|discriminate].
  intros H Hne; inversion H; subst; clear H.
  apply accumulate_spec in Hacc as (k & _ & -> & _ & _).
  set (cl := [strip (replace label_content [] (strip raw))]
             ++ map strip (firstn k (skipn (i + 1 + 1) lines))) in *.
  assert (Hall : Forall (fun l => exists y, l = strip y) cl).
  { apply Forall_app. split; [repeat constructor; eauto|].
    apply Forall_forall. intros l Hl. apply in_map_iff in Hl as (y & <- & _).
    eauto. }
  destruct (pop_trailing_empty_spec cl) as (n & Hcl & Hlast).
  destruct (last_cases _ (pop_trailing_empty cl)) as [Hnil | (kept & x & Hkept)].
  { rewrite Hnil in Hne. simpl in Hne. congruence. }
  rewrite Hkept in *.
  assert (Hx : exists y, x = strip y).
  { rewrite Hcl in Hall. apply Forall_app in Hall as [Hall _].
    apply Forall_app in Hall as [_ Hall]. now inversion Hall. }
  destruct Hx as [y ->].
  destruct (strip_ends y) as [Hy | (c & d & w & v & _ & Hd & _ & Hv)].
  - exfalso. apply (Hlast kept). now rewrite Hy.
  - destruct (join_last newline kept (strip y)) as [u ->].
    rewrite Hv, app_assoc. now apply rstrip_fixed.
Qed.

End Trimmed.

(** X9.  In every message returned the content is non-empty and does not
    end with white space (no trailing blank line, space or newline), and
    the timestamp, when there is one, has no white space at either end. *)
Theorem messages_are_trimmed (lines : list pystr) (out : list message) :
  parse_chat_log lines = Some out ->
  Forall (fun m =>
            content m <> [] /\ rstrip (content m) = content m /\
            forall t, timestamp m = Some t -> strip t = t) out.
Proof.
  intros H.
  pose proof (parse_loop_nonempty lines 0 [] (Forall_nil _) out H) as Hne.
  destruct (parse_loop_origins lines 0 [] [] (Forall2_nil _)
              (SSorted_nil _) (Forall_nil _) out H) as (js & _ & Hf).
  clear H. induction Hf as [|j m js out Hm _ IH]; [constructor|].
  inversion Hne as [|? ? Hc Hne']; subst.
  constructor; [|now apply IH].
  destruct Hm as (raw & i' & _ & _ & Hrec).
  unfold read_record in Hrec.
  destruct (read_timestamp lines j) as [[t i1]|] eqn:Ht; [|discriminate].
  destruct (read_content lines i1) as [[c i2]|] eqn:Hcont; [|discriminate].
  destruct (skip_mentions lines i2); [|discriminate].
  inversion Hrec; subst.
  split; [exact Hc|]. split.
  - eapply read_content_trimmed; eauto.
  - intros t' Heq. rewrite Heq in Ht. revert Ht. unfold read_timestamp.
    destruct (peek_label _ _ _) as [[|]|]; try discriminate.
    destruct (subscript _ _); [|discriminate].
    intros Hx; inversion Hx. apply strip_idempotent.
Qed.

Lemma messages_are_trimmed_witness :
  parse_chat_log blank_lines_text
  = Some [ Message (py "甲") (Some (py "20:00"))
                   (rows_of ["第一行"; ""; "第二行"]%string);
           Message (py "乙") (Some (py "20:01")) (py "好") ] /\
  Forall (fun m => content m <> [] /\ rstrip (content m) = content m)
    [ Message (py "甲") (Some (py "20:00"))
              (rows_of ["第一行"; ""; "第二行"]%string);
      Message (py "乙") (Some (py "20:01")) (py "好") ].
Proof.
  assert (H : parse_chat_log blank_lines_text
              = Some [ Message (py "甲") (Some (py "20:00"))
                               (rows_of ["第一行"; ""; "第二行"]%string);
                       Message (py "乙") (Some (py "20:01")) (py "好") ])
    by (vm_compute; reflexivity).
  split; [exact H|].
  eapply Forall_impl; [|exact (messages_are_trimmed blank_lines_text _ H)].
  simpl. intros m (H1 & H2 & _). auto.
Defined.

(** The content may still begin with an empty line: the first content line
    is kept even when nothing follows the label on it. *)
Example body_may_start_with_newline :
  parse_chat_log (readlines (text_of ["A:"; "内容:"; "hello"]%string))
  = Some [Message (py "A") None (rows_of [""; "hello"]%string)].
Proof. vm_compute. reflexivity. Qed.

(* ===================================================================== *)
(** ** What the accumulation never takes *)
(* ===================================================================== *)

Lemma stops_here_false (lines : list pystr) (i : nat) (next_line : pystr) :
  stops_here lines i next_line = Some false ->
  startswith label_mention next_line = false /\
  (endswith colon next_line = true ->
   peek_label lines (i + 2) label_time = Some false).
Proof.
  unfold stops_here. destruct (startswith label_mention next_line);
    [discriminate|].
  destruct (endswith colon next_line); intros H; split; auto; discriminate.
Qed.

Lemma accumulate_passed (lines : list pystr) (i ce : nat) (cl : list pystr)
    (i' : nat) (cl' : list pystr) :
  accumulate lines i ce cl = Some (i', cl') ->
  forall j raw,
    i + 1 <= j <= i' -> subscript lines j = Some raw ->
    stops_here lines (j - 1) (strip raw) = Some false.
Proof.
  functional induction (accumulate lines i ce cl); intros Hr j raw' Hj Hraw;
    try discriminate Hr; try (inversion Hr; subst; lia).
  - destruct (Nat.eq_dec j (i + 1)) as [-> | Hneq].
    + rewrite e0 in Hraw. inversion Hraw; subst.
      now replace (i + 1 - 1) with i by lia.
    + apply (IHo Hr j raw'); [lia | exact Hraw].
  - destruct (Nat.eq_dec j (i + 1)) as [-> | Hneq].
    + rewrite e0 in Hraw. inversion Hraw; subst.
      now replace (i + 1 - 1) with i by lia.
    + apply (IHo Hr j raw'); [lia | exact Hraw].
Qed.

(** X10.  No line taken into a content after its first line is a mention
    line, and none is a line ending with a colon that is followed by a
    time line: the accumulation never swallows the mention field or the
    header of a following record that has a time field. *)
Theorem body_excludes_mentions_and_headers (lines : list pystr) (i : nat)
    (body : pystr) (i' : nat) :
  read_content lines i = Some (Some body, i') ->
  forall j raw,
    i + 2 <= j <= i' -> subscript lines j = Some raw ->
    startswith label_mention (strip raw) = false /\
    (endswith colon (strip raw) = true ->
     peek_label lines (j + 1) label_time = Some false).
Proof.
  unfold read_content.
  destruct (peek_label lines (i + 1) label_content) as [[|]|];
    try discriminate.
  destruct (subscript lines (i + 1)) as [first|]; [|discriminate].
  destruct (accumulate _ _ _ _) as [[k cl]|] eqn:Hacc; [|discriminate].
  intros H j raw Hj Hraw. inversion H; subst.
  pose proof (accumulate_passed _ _ _ _ _ _ Hacc j raw ltac:(lia) Hraw) as Hp.
  apply stops_here_false in Hp.
  now replace (j - 1 + 2) with (j + 1) in Hp by lia.
Qed.

Lemma body_excludes_mentions_and_headers_witness :
  read_content blank_lines_text 1
  = Some (Some (rows_of ["第一行"; ""; "第二行"]%string), 5) /\
  (1 + 2 <= 4 <= 5) /\
  subscript blank_lines_text 4 = Some (line_of "   第二行") /\
  startswith label_mention (strip (line_of "   第二行")) = false.
Proof.
  assert (H : read_content blank_lines_text 1
              = Some (Some (rows_of ["第一行"; ""; "第二行"]%string), 5))
    by (vm_compute; reflexivity).
  assert (Hj : 1 + 2 <= 4 <= 5) by lia.
  assert (Hraw : subscript blank_lines_text 4 = Some (line_of "   第二行"))
    by (vm_compute; reflexivity).
  split; [exact H|]. split; [exact Hj|]. split; [exact Hraw|].
  exact (proj1 (body_excludes_mentions_and_headers _ _ _ _ H 4 _ Hj Hraw)).
Defined.

(* ===================================================================== *)
(** ** Further properties of the rendering *)
(* ===================================================================== *)

Section RenderingMore.

Lemma dict_get_In (V : Type) (d : list (pystr * V)) (k : pystr) (v : V) :
  dict_get d k = Some v -> In (k, v) d.
Proof.
  induction d as [|[k' v'] d IH]; simpl; [discriminate|].
  destruct (eqb k' k) eqn:E.
  - intros H; inversion H; subst. apply eqb_eq in E. subst. now left.
  - intros H. right. now apply IH.
Qed.

(** The character names are not themselves keys of the name table, and
    each has a colour. *)
Lemma character_names (k name : pystr) :
  dict_get NAME_MAPPING k = Some name ->
  dict_get NAME_MAPPING name = None /\
  exists rgb, dict_get COLOR_MAPPING name = Some rgb.
Proof.
  intros H. apply dict_get_In in H.
  assert (Hall : forallb
                   (fun kv =>
                      match dict_get NAME_MAPPING (snd kv),
                            dict_get COLOR_MAPPING (snd kv) with
                      | None, Some _ => true
                      | _, _ => false
                      end) NAME_MAPPING = true)
    by (vm_compute; reflexivity).
  rewrite forallb_forall in Hall. specialize (Hall _ H). cbn [snd] in Hall.
  destruct (dict_get NAME_MAPPING name); [discriminate Hall|].
  destruct (dict_get COLOR_MAPPING name) as [rgb|];
    [eauto | discriminate Hall].
Qed.

(** The runs of a paragraph: the name run, the timestamp run if any, the
    separator and the body, all of one colour. *)
Lemma paragraph_runs_layout (msg : message) :
  exists ts,
    paragraph_runs msg
    = Run (username msg) true (dict_get COLOR_MAPPING (username msg))
      :: ts
      ++ [ Run (py ": ") false (dict_get COLOR_MAPPING (username msg));
           Run (content msg) false (dict_get COLOR_MAPPING (username msg)) ]
    /\ (ts = []
        \/ exists t,
             ts = [Run (py " [" ++ t ++ py "]") false
                       (dict_get COLOR_MAPPING (username msg))]).
Proof.
  unfold paragraph_runs, timestamp_runs.
  destruct (timestamp msg) as [t|]; [destruct (truthy t)|].
  - eexists. split; [reflexivity|]. right. now exists t.
  - exists []. split; [reflexivity | now left].
  - exists []. split; [reflexivity | now left].
Qed.

Lemma render_sessions_closed_form (sessions : list (list message)) :
  forall idx doc,
    render_sessions idx sessions doc
    = doc ++ concat (map (fun p => session_blocks (fst p) (snd p))
                         (combine (seq idx (length sessions)) sessions)).
Proof.
  induction sessions as [|s ss IH]; intros idx doc; simpl.
  - now rewrite app_nil_r.
  - rewrite IH. now rewrite <- app_assoc.
Qed.

End RenderingMore.

(** X11.  In every paragraph of the document all runs have the same colour
    (or none has one), the first run is the only bold one, and there are
    three runs or four. *)
Theorem paragraphs_are_uniform (sessions : list (list message)) :
  Forall (fun runs =>
            (exists c, Forall (fun r => color r = c) runs) /\
            map bold runs = true :: repeat false (length runs - 1) /\
            (length runs = 3 \/ length runs = 4))
         (paragraphs (create_word_document sessions)).
Proof.
  rewrite paragraphs_of_document. apply Forall_forall. intros runs Hin.
  apply in_map_iff in Hin as (msg & <- & _). unfold render_message.
  destruct (paragraph_runs_layout (process_message msg))
    as (ts & -> & [-> | (t & ->)]); cbn [app];
    generalize (dict_get COLOR_MAPPING (username (process_message msg)));
    generalize (username (process_message msg));
    generalize (content (process_message msg)); intros body name c.
  - split; [exists c; repeat constructor|].
    split; [reflexivity | left; reflexivity].
  - split; [exists c; repeat constructor|].
    split; [reflexivity | right; reflexivity].
Qed.

(** X12.  A message whose author is a key of the name table is shown under
    the character name of the table, and every run of its paragraph has
    the colour of that character. *)
Theorem mapped_author_colored (msg : message) (name : pystr) :
  dict_get NAME_MAPPING (username msg) = Some name ->
  exists rgb rest,
    dict_get COLOR_MAPPING name = Some rgb /\
    render_message msg = Run name true (Some rgb) :: rest /\
    Forall (fun r => color r = Some rgb) (render_message msg).
Proof.
  intros Hname. destruct (character_names _ _ Hname) as [_ [rgb Hrgb]].
  assert (Hu : username (process_message msg) = name).
  { unfold process_message. cbn [username]. now rewrite Hname. }
  unfold render_message.
  destruct (paragraph_runs_layout (process_message msg))
    as (ts & -> & Hts).
  rewrite Hu, Hrgb in Hts |- *. exists rgb. eexists.
  split; [reflexivity|]. split; [reflexivity|].
  generalize (content (process_message msg)). intros body.
  destruct Hts as [-> | (t & ->)]; cbn [app]; repeat constructor.
Qed.

Lemma mapped_author_colored_witness :
  dict_get NAME_MAPPING (username (msg_talk "梦之海" "我走进酒馆"))
  = Some (py "【菟丝子】十七") /\
  exists rgb rest,
    dict_get COLOR_MAPPING (py "【菟丝子】十七") = Some rgb /\
    render_message (msg_talk "梦之海" "我走进酒馆")
    = Run (py "【菟丝子】十七") true (Some rgb) :: rest /\
    Forall (fun r => color r = Some rgb)
           (render_message (msg_talk "梦之海" "我走进酒馆")).
Proof.
  assert (H : dict_get NAME_MAPPING (username (msg_talk "梦之海" "我走进酒馆"))
              = Some (py "【菟丝子】十七")) by (vm_compute; reflexivity).
  split; [exact H|].
  exact (mapped_author_colored (msg_talk "梦之海" "我走进酒馆") _ H).
Defined.

(** X13.  The document is the title followed, for each session in order, by
    a heading numbered from 1 and the paragraphs of its messages in their
    order. *)
Theorem document_is_numbered (sessions : list (list message)) :
  create_word_document sessions
  = Heading (py "RPG会话记录") 0
    :: concat
         (map (fun p =>
                 Heading (py "会话 " ++ str_of_nat (fst p)) 1
                 :: map (fun m => Paragraph (render_message m)) (snd p))
              (combine (seq 1 (length sessions)) sessions)).
Proof.
  unfold create_word_document. rewrite render_sessions_closed_form.
  simpl. do 2 f_equal. apply map_ext. intros [idx s].
  unfold session_blocks, process_rpg_session, render_message. simpl.
  now rewrite map_map.
Qed.

(** X14.  Processing a processed session again changes nothing: the
    character names are not keys of the name table, and the timestamps
    kept are those of the markers. *)
Theorem process_is_idempotent (session : list message) :
  process_rpg_session (process_rpg_session session)
  = process_rpg_session session.
Proof.
  unfold process_rpg_session. rewrite map_map. apply map_ext. intros m.
  unfold process_message. cbn [username timestamp content].
  assert (Hname : forall u,
             dict_get NAME_MAPPING
               match dict_get NAME_MAPPING u with
               | Some name => name
               | None => u
               end = None).
  { intros u. destruct (dict_get NAME_MAPPING u) as [name|] eqn:E.
    - now destruct (character_names _ _ E).
    - exact E. }
  rewrite Hname.
  destruct (is_start_marker (content m) || is_end_marker (content m));
    reflexivity.
Qed.

(** X15.  A start or end marker that carries a non-empty timestamp is
    rendered with that timestamp, in brackets, between the name and the
    separator. *)
Theorem marker_shows_timestamp (msg : message) (t : pystr) :
  is_start_marker (content msg) = true \/ content msg = save_marker ->
  timestamp msg = Some t -> t <> [] ->
  render_message msg
  = [ Run (username (process_message msg)) true
          (dict_get COLOR_MAPPING (username (process_message msg)));
      Run (py " [" ++ t ++ py "]") false
          (dict_get COLOR_MAPPING (username (process_message msg)));
      Run (py ": ") false
          (dict_get COLOR_MAPPING (username (process_message msg)));
      Run (content msg) false
          (dict_get COLOR_MAPPING (username (process_message msg))) ].
Proof.
  intros Hmark Ht Hne.
  assert (Hm : is_start_marker (content msg) || is_end_marker (content msg)
               = true).
  { destruct Hmark as [-> | Heq]; [reflexivity|].
    unfold is_end_marker. rewrite Heq, (proj2 (eqb_eq _ _) eq_refl).
    apply orb_true_r. }
  unfold render_message, paragraph_runs, timestamp_runs, process_message.
  cbn [username timestamp content]. rewrite Hm, Ht.
  destruct t; [congruence | reflexivity].
Qed.

Lemma marker_shows_timestamp_witness :
  (is_start_marker (content msg_save) = true \/ content msg_save = save_marker) /\
  timestamp msg_save = Some (py "2024-01-02 23:00:00") /\
  py "2024-01-02 23:00:00" <> [] /\
  render_message msg_save
  = [ Run (py "【神谕圣咏】吾即五声") true (Some (RGB 255 0 0));
      Run (py " [2024-01-02 23:00:00]") false (Some (RGB 255 0 0));
      Run (py ": ") false (Some (RGB 255 0 0));
      Run save_marker false (Some (RGB 255 0 0)) ].
Proof.
  assert (H1 : is_start_marker (content msg_save) = true
               \/ content msg_save = save_marker) by (right; reflexivity).
  assert (H2 : timestamp msg_save = Some (py "2024-01-02 23:00:00"))
    by reflexivity.
  assert (H3 : py "2024-01-02 23:00:00" <> []) by (vm_compute; discriminate).
  split; [exact H1|]. split; [exact H2|]. split; [exact H3|].
  rewrite (marker_shows_timestamp msg_save _ H1 H2 H3).
  vm_compute. reflexivity.
Defined.

(* ===================================================================== *)
(** ** The command line *)
(* ===================================================================== *)

Section MainProperties.

Variable splitext : pystr -> pystr * pystr.
Variable read_lines : pystr -> io_result (list pystr).
Variable save_document : pystr -> list block -> io_result unit.

Lemma sessions_nil_markers (messages : list message) :
  extract_rpg_sessions messages = [] <-> start_markers messages = [].
Proof.
  pose proof (extract_heads messages) as H. split; intros E; rewrite E in H.
  - destruct (start_markers messages); [reflexivity | discriminate H].
  - destruct (extract_rpg_sessions messages); [reflexivity | discriminate H].
Qed.

Lemma sessions_count (messages : list message) :
  length (extract_rpg_sessions messages) = length (start_markers messages).
Proof.
  rewrite <- (length_map (@hd_error message)), extract_heads.
  apply length_map.
Qed.

(** The body of the [try] on a log that can be read. *)
Lemma process_readable (so_far : list pystr) (input_file output_file : pystr)
    (lines : list pystr) :
  read_lines input_file = IoOk lines ->
  exists messages,
    parse_chat_log lines = Some messages /\
    let sessions := extract_rpg_sessions messages in
    let counted :=
      so_far
      ++ [py "正在解析聊天记录..."]
      ++ [ py "共解析到 " ++ str_of_nat (length messages) ++ py " 条消息";
           py "正在提取RPG会话..." ]
      ++ [py "共提取到 " ++ str_of_nat (length sessions) ++ py " 个RPG会话"] in
    process read_lines save_document so_far input_file output_file
    = match sessions with
      | [] => Outcome (counted ++ [py "⚠️  未找到RPG会话"]) 0 None
      | _ :: _ =>
          let so_far := counted ++ [py "正在生成Word文档..."] in
          let doc := create_word_document sessions in
          match save_document output_file doc with
          | IoNotFound => on_file_not_found so_far input_file
          | IoRaised text => on_exception so_far text
          | IoOk _ =>
              Outcome (so_far ++ [ py "Word文档已生成：" ++ output_file;
                                   py "✅ 完成！" ])
                      0 (Some (output_file, doc))
          end
      end.
Proof.
  intros Hread. destruct (parse_loop_total lines 0 []) as [messages Hparse].
  exists messages. split; [exact Hparse|].
  unfold process. rewrite Hread. unfold parse_chat_log in *. rewrite Hparse.
  cbv zeta. rewrite <- !app_assoc. reflexivity.
Qed.





End MainProperties.




